(** * FlappyBirdAI: the game model of [main.py] and [flappy_neat.py]

    A shallow embedding of the two game loops and of the classes they share
    ([Bird], [Pipe], [Base]), followed by the properties of the
    specification that were checked against them.

    Numbers.  Python integers are [Z].  Python floats are modelled as exact
    rationals [Q]: every physical quantity the program computes (positions,
    velocities, displacements) is an integer multiple of 0.5 of small
    magnitude, on which binary floating point is exact.  The fitness
    accumulator is the one quantity built from 0.1, which binary floating
    point only approximates: the [fitness] of an agent is its reading in
    exact arithmetic, and [fitness_after] accumulates the same updates in
    binary64, as the program does.

    Collaborators.  Sprite sizes, pixel-mask overlap, the neural networks
    and the random generator belong to pygame, neat-python and the Python
    library; they appear as parameters. *)

From Stdlib Require Import ZArith QArith Qabs Qround List Bool Lia Lqa Sorted.
From Stdlib Require Import PrimFloat.
Import ListNotations.
Open Scope Q_scope.

(* 0.1 has no binary64 value: as a float it is read, as Python reads it,
   as the nearest one. *)
Set Warnings "-inexact-float".

(** ** Numeric helpers *)

Definition Qltb (a b : Q) : bool := negb (Qle_bool b a).

(** Python's [round(v)] on a float: nearest integer, ties to the even one. *)
Definition py_round (v : Q) : Z :=
  let f := Qfloor v in
  let r := v - inject_Z f in
  if Qltb r 0.5 then f
  else if Qltb 0.5 r then (f + 1)%Z
  else if Z.even f then f else (f + 1)%Z.

(** ** Configuration constants *)

Definition WIN_WIDTH : Z := 576.
Definition WIN_HEIGHT : Z := 800.

(** ** class Bird *)

Module Bird.

Definition MAX_ROTATION : Z := 25.
Definition ROT_VEL : Z := 20.
Definition ANIMATION_TIME : Z := 5.
(** [len(Bird.IMGS)]: the three frames bird1.png, bird2.png, bird3.png. *)
Definition N_IMGS : Z := 3.

(** [img] is the index into [Bird.IMGS] of the current frame.  [alive]
    exists in flappy_neat.py only; main.py never reads or writes it. *)
Record t := mk {
  x : Z;
  y : Q;
  tilt : Z;
  tick_count : Z;
  vel : Q;
  height : Q;
  img_count : Z;
  img : Z;
  alive : bool
}.

Definition init (x0 y0 : Z) : t :=
  mk x0 (inject_Z y0) 0 0 0 (inject_Z y0) 0 0 true.

Definition jump (b : t) : t :=
  mk (x b) (y b) (tilt b) 0 (-9.5) (y b) (img_count b) (img b) (alive b).

(** The displacement of one tick, from the velocity and the already
    incremented tick counter: the body of [move] up to [self.y += d]. *)
Definition displacement (v : Q) (tc : Z) : Q :=
  let d := v * inject_Z tc + 0.5 * 3 * inject_Z (tc ^ 2) in
  let d := if Qle_bool 16 d then 16 else d in
  if Qltb d 0 then d - 2 else d.

Definition move (b : t) : t :=
  let tc := (tick_count b + 1)%Z in
  let d := displacement (vel b) tc in
  let y' := y b + d in
  let tilt' :=
    if Qltb d 0 || Qltb y' (height b + 50)
    then (if (tilt b <? MAX_ROTATION)%Z then MAX_ROTATION else tilt b)
    else (if (-90 <? tilt b)%Z then (tilt b - ROT_VEL)%Z else tilt b) in
  mk (x b) y' tilt' tc (vel b) (height b) (img_count b) (img b) (alive b).

(** [draw], without the blit: the animation state it leaves behind. *)
Definition draw (b : t) : t :=
  let ic := (img_count b + 1)%Z in
  let idx := ((ic / ANIMATION_TIME) mod N_IMGS)%Z in
  if (tilt b <=? -80)%Z
  then mk (x b) (y b) (tilt b) (tick_count b) (vel b) (height b)
          (ANIMATION_TIME * 2) 1 (alive b)
  else mk (x b) (y b) (tilt b) (tick_count b) (vel b) (height b)
          ic idx (alive b).

(** [bird.alive = False] *)
Definition kill (b : t) : t :=
  mk (x b) (y b) (tilt b) (tick_count b) (vel b) (height b)
     (img_count b) (img b) false.

(** The bird [n] ticks after a jump, no further jump in between. *)
Definition after_jump (b : t) (n : nat) : t := Nat.iter n move (jump b).

(** What the tick that finds the counter at [n] adds to [y]. *)
Definition rise (b : t) (n : nat) : Q :=
  y (after_jump b (S n)) - y (after_jump b n).

End Bird.

(** ** The random generator

    [random.randrange] of the Python library, unseeded in the program: the
    generator is a stream of raw samples and a cursor; a draw below [n]
    reduces the next sample to [0, n). *)

Module Random.

Record t := mk { raw : nat -> Z; pos : nat }.

Definition randbelow (n : Z) (g : t) : Z * t :=
  ((raw g (pos g) mod n)%Z, mk (raw g) (S (pos g))).

Definition randrange (start stop : Z) (g : t) : Z * t :=
  let (r, g') := randbelow (stop - start) g in ((start + r)%Z, g').

End Random.

(** ** class Pipe *)

(** The pixel masks handed to [Mask.overlap]: the bird's current frame and
    the two halves of an obstacle. *)
Inductive Mask := BirdMask (frame : Z) | PipeTopMask | PipeBottomMask.

Module Pipe.

Definition GAP : Z := 150.
Definition VEL : Z := 5.

Record t := mk {
  x : Z;
  passed : bool;
  height : Z;
  top : Z;
  bottom : Z
}.

(** [top_h] is [self.PIPE_TOP.get_height()]. *)
Definition set_height (top_h : nat) (p : t) (g : Random.t) : t * Random.t :=
  let (h, g') := Random.randrange 50 350 g in
  (mk (x p) (passed p) h (h - Z.of_nat top_h) (h + GAP), g').

(** [Pipe(x0)]: the three heights do not exist before [set_height]
    assigns them. *)
Definition init (top_h : nat) (x0 : Z) (g : Random.t) : t * Random.t :=
  set_height top_h (mk x0 false 0 0 0) g.

Definition move (p : t) : t :=
  mk (x p - VEL) (passed p) (height p) (top p) (bottom p).

(** [pipe.passed = True] *)
Definition set_passed (p : t) : t :=
  mk (x p) true (height p) (top p) (bottom p).

(** An obstacle not yet passed that its move of this tick brings strictly
    to the left of the abscissa [rx]. *)
Definition overtaken (rx : Z) (p : t) : bool :=
  negb (passed p) && (x p - VEL <? rx)%Z.

(** [collide]: the truth value of [t_point or b_point].  main.py computes
    the two overlaps in the other order, with the same truth value. *)
Definition collide (overlap : Mask -> Mask -> Z * Z -> bool)
           (p : t) (b : Bird.t) : bool :=
  let bird_mask := BirdMask (Bird.img b) in
  let top_offset := ((x p - Bird.x b)%Z, (top p - py_round (Bird.y b))%Z) in
  let bottom_offset :=
    ((x p - Bird.x b)%Z, (bottom p - py_round (Bird.y b))%Z) in
  overlap bird_mask PipeTopMask top_offset
  || overlap bird_mask PipeBottomMask bottom_offset.

End Pipe.

(** ** class Base *)

Module Base.

Definition VEL : Z := 5.

Record t := mk { y : Z; x1 : Z; x2 : Z }.

(** [W] is [Base.WIDTH], the width of base.png as loaded. *)
Definition init (W : Z) (y0 : Z) : t := mk y0 0 W.

Definition move (W : Z) (b : t) : t :=
  let a1 := (x1 b - VEL)%Z in
  let a2 := (x2 b - VEL)%Z in
  let a1 := if (a1 + W <? 0)%Z then (a2 + W)%Z else a1 in
  let a2 := if (a2 + W <? 0)%Z then (a1 + W)%Z else a2 in
  mk (y b) a1 a2.

(** The ground after [n] ticks of a session. *)
Definition after (W : Z) (y0 : Z) (n : nat) : t :=
  Nat.iter n (move W) (init W y0).

(** The two segments touch: one starts where the other ends. *)
Definition adjacent (W : Z) (b : t) : Prop :=
  x2 b = (x1 b + W)%Z \/ x1 b = (x2 b + W)%Z.

(** The left one of the two segments starts in [-W, 0]. *)
Definition anchored (W : Z) (b : t) : Prop :=
  (- W <= Z.min (x1 b) (x2 b) <= 0)%Z.

End Base.

(** ** Collaborators

    What pygame, the image files and neat-python contribute: the sizes of
    the loaded sprites, the pixel-mask overlap test, and the networks.  A
    network is built from a genome and carries a state of its own;
    [activate] returns [output[0]] and the state it leaves behind. *)

Record World := {
  Genome : Type;
  NetSt : Type;
  create_net : Genome -> NetSt;
  activate : NetSt -> Q -> Q -> Q -> Q * NetSt;
  overlap : Mask -> Mask -> Z * Z -> bool;
  bird_img_height : Z -> nat;
  pipe_img_width : nat;
  pipe_img_height : nat;
  base_img_width : nat
}.

Inductive result (A : Type) := Ok (a : A) | IndexError.
Arguments Ok {A} a.
Arguments IndexError {A}.

(** ** flappy_neat.py: [eval_genomes]

    [birds], [nets] and [ge] are filled together and only ever read at one
    common index, so the cohort is one list of agents: [bird] is
    [birds[i]], [net] is [nets[i]], [genome] is [ge[i]] and [fitness] is
    [ge[i].fitness].  The genomes of a population are distinct objects, so
    each fitness is a cell of its own.  Here it is added up exactly;
    [fitness_after] adds the same updates up in binary64. *)

Module Neat.

Section Evaluation.

Context (w : World).

Record Agent := mkAgent {
  bird : Bird.t;
  net : NetSt w;
  genome : Genome w;
  fitness : Q
}.

Record State := mkState {
  agents : list Agent;
  pipes : list Pipe.t;
  base : Base.t;
  score : Z;
  rng : Random.t;
  GEN : Z
}.

Definition is_alive (a : Agent) : bool := Bird.alive (bird a).

(** [alive_birds = [b for b in birds if b.alive]] *)
Definition alive_birds (s : State) : list Agent := filter is_alive (agents s).

(** [pipe_ind], computed once some bird is known to be alive. *)
Definition pipe_ind (s : State) : nat :=
  match alive_birds s, pipes s with
  | a0 :: _, p0 :: _ :: _ =>
      if (Pipe.x p0 + Z.of_nat (pipe_img_width w) <? Bird.x (bird a0))%Z
      then 1%nat else 0%nat
  | _, _ => 0%nat
  end.

(** One pass of the first loop over the birds, [lead] being
    [pipes[pipe_ind]]. *)
Definition decide (lead : Pipe.t) (a : Agent) : Agent :=
  if is_alive a then
    let b := Bird.move (bird a) in
    let f := fitness a + 0.1 in
    let top_dist := Qabs (Bird.y b - inject_Z (Pipe.height lead)) in
    let bottom_dist :=
      Qabs (Bird.y b - inject_Z (Pipe.height lead + Pipe.GAP)) in
    let (out, n') := activate w (net a) (Bird.y b) top_dist bottom_dist in
    mkAgent (if Qltb 0.5 out then Bird.jump b else b) n' (genome a) f
  else a.

(** The collision test of one bird against one obstacle. *)
Definition strike (p : Pipe.t) (a : Agent) : Agent :=
  if is_alive a && Pipe.collide (overlap w) p (bird a)
  then mkAgent (Bird.kill (bird a)) (net a) (genome a) (fitness a - 1)
  else a.

(** [birds[0].x]; the loop body runs only while some bird is alive, so
    the list is not empty where this is read. *)
Definition ref_x (ags : list Agent) : Z :=
  match ags with
  | a0 :: _ => Bird.x (bird a0)
  | [] => 0%Z
  end.

Definition off_screen (p : Pipe.t) : bool :=
  (Pipe.x p + Z.of_nat (pipe_img_width w) <? 0)%Z.

(** [not pipe.passed and birds[0].x > pipe.x], [rx] being [birds[0].x]. *)
Definition crossed (rx : Z) (p : Pipe.t) : bool :=
  negb (Pipe.passed p) && (Pipe.x p <? rx)%Z.

(** [for pipe in pipes]: every obstacle is moved, struck against the birds
    and marked when the first bird has passed it.  Returns the birds, the
    obstacles and [add_pipe]. *)
Fixpoint pipe_loop (ps : list Pipe.t) (ags : list Agent) (add_pipe : bool)
  : list Agent * list Pipe.t * bool :=
  match ps with
  | [] => (ags, [], add_pipe)
  | p :: rest =>
      let p1 := Pipe.move p in
      let ags1 := map (strike p1) ags in
      let crossing := crossed (ref_x ags1) p1 in
      let p2 := if crossing then Pipe.set_passed p1 else p1 in
      let '(ags2, rest', add') := pipe_loop rest ags1 (add_pipe || crossing) in
      (ags2, p2 :: rest', add')
  end.

(** [genome.fitness += 5] *)
Definition reward (a : Agent) : Agent :=
  mkAgent (bird a) (net a) (genome a) (fitness a + 5).

Definition out_of_bounds (base_y : Z) (b : Bird.t) : bool :=
  Qle_bool (inject_Z base_y)
           (Bird.y b + inject_Z (Z.of_nat (bird_img_height w (Bird.img b))))
  || Qltb (Bird.y b) 0.

(** The last loop over the birds: ground and ceiling. *)
Definition bound (base_y : Z) (a : Agent) : Agent :=
  if is_alive a && out_of_bounds base_y (bird a)
  then mkAgent (Bird.kill (bird a)) (net a) (genome a) (fitness a - 1)
  else a.

(** What [draw_window] leaves behind: the frame counters of the birds it
    draws. *)
Definition render (a : Agent) : Agent :=
  if is_alive a
  then mkAgent (Bird.draw (bird a)) (net a) (genome a) (fitness a)
  else a.

(** The birds after the first loop.  [pipes[pipe_ind]] is read once per
    living bird, from a list that loop does not change; it raises for all
    of them or for none. *)
Definition after_decide (s : State) : result (list Agent) :=
  match nth_error (pipes s) (pipe_ind s) with
  | None => IndexError
  | Some lead => Ok (map (decide lead) (agents s))
  end.

(** The birds, the obstacles and [add_pipe] after the loop over the
    obstacles. *)
Definition after_pipes (s : State)
  : result (list Agent * list Pipe.t * bool) :=
  match after_decide s with
  | IndexError => IndexError
  | Ok ags1 => Ok (pipe_loop (pipes s) ags1 false)
  end.

(** One iteration of the [while] loop, from the line after the [break].
    [rem] holds exactly the obstacles that are off screen once moved, and
    the obstacle appended in this iteration is never among them, so the
    removal keeps the others in order and the new one behind them. *)
Definition tick (s : State) : result State :=
  match after_pipes s with
  | IndexError => IndexError
  | Ok (ags2, ps2, add_pipe) =>
      let kept := filter (fun p => negb (off_screen p)) ps2 in
      let '(score3, ags3, ps3, g3) :=
        if add_pipe
        then let (np, g') :=
               Pipe.init (pipe_img_height w) (WIN_WIDTH + 100) (rng s) in
             ((score s + 1)%Z, map reward ags2, kept ++ [np], g')
        else (score s, ags2, kept, rng s) in
      let ags4 := map (bound (Base.y (base s))) ags3 in
      let base' := Base.move (Z.of_nat (base_img_width w)) (base s) in
      Ok (mkState (map render ags4) ps3 base' score3 g3 (GEN s))
  end.

Inductive outcome :=
| Returned (s : State)
| Raised
| Exited
| OutOfFuel (s : State).

(** The [while] loop.  [quits] tells, iteration by iteration, whether a
    QUIT event is waiting in the queue ([sys.exit()]); past its end none
    is. *)
Fixpoint loop (fuel : nat) (quits : list bool) (s : State) : outcome :=
  match fuel with
  | O => OutOfFuel s
  | S fuel' =>
      if hd false quits then Exited
      else match alive_birds s with
           | [] => Returned s
           | _ :: _ =>
               match tick s with
               | IndexError => Raised
               | Ok s' => loop fuel' (tl quits) s'
               end
           end
  end.

(** The state the loop starts from: everything before [while]. *)
Definition start (genomes : list (Z * Genome w)) (gen : Z) (g : Random.t)
  : State :=
  let ags :=
    map (fun ig => mkAgent (Bird.init 230 350) (create_net w (snd ig))
                           (snd ig) 0) genomes in
  let b := Base.init (Z.of_nat (base_img_width w)) 730 in
  let (p, g') := Pipe.init (pipe_img_height w) 700 g in
  mkState ags [p] b 0 g' (gen + 1).

Definition eval_genomes (fuel : nat) (quits : list bool)
           (genomes : list (Z * Genome w)) (gen : Z) (g : Random.t)
  : outcome :=
  loop fuel quits (start genomes gen g).

(** The states in which an iteration of the loop was started, in order. *)
Fixpoint history (fuel : nat) (quits : list bool) (s : State) : list State :=
  match fuel with
  | O => []
  | S fuel' =>
      if hd false quits then []
      else match alive_birds s with
           | [] => []
           | _ :: _ =>
               match tick s with
               | IndexError => [s]
               | Ok s' => s :: history fuel' (tl quits) s'
               end
           end
  end.

(** *** The loop over the obstacles, bird by bird and obstacle by obstacle *)

(** What the loop over [ps] does to one bird. *)
Definition strike_all (ps : list Pipe.t) (a : Agent) : Agent :=
  fold_left (fun a' p => strike (Pipe.move p) a') ps a.

(** What it does to one obstacle. *)
Definition advance (rx : Z) (p : Pipe.t) : Pipe.t :=
  let p1 := Pipe.move p in
  if crossed rx p1 then Pipe.set_passed p1 else p1.

(** The shape of the states of a run: every bird at the abscissa it was
    created with, and every obstacle passed except the last one. *)
Definition well_formed (s : State) : Prop :=
  Forall (fun a => Bird.x (bird a) = 230%Z) (agents s) /\
  exists olds p,
    pipes s = olds ++ [p] /\
    forallb Pipe.passed olds = true /\ Pipe.passed p = false.

(** *** What happens in an iteration, read off its phases *)

(** Is bird [i] there and alive? *)
Definition alive_at (ags : list Agent) (i : nat) : bool :=
  match nth_error ags i with
  | Some a => is_alive a
  | None => false
  end.

(** [add_pipe] as the loop over the obstacles leaves it. *)
Definition pass_event (s : State) : bool :=
  match after_pipes s with
  | Ok (_, _, add_pipe) => add_pipe
  | IndexError => false
  end.

(** What an iteration makes of one bird, [lead] being [pipes[pipe_ind]]. *)
Definition agent_after (s : State) (lead : Pipe.t) (a : Agent) : Agent :=
  let a2 := strike_all (pipes s) (decide lead a) in
  render (bound (Base.y (base s)) (if pass_event s then reward a2 else a2)).

Definition count_passed (ps : list Pipe.t) : nat :=
  length (filter Pipe.passed ps).

(** How many obstacles get their [passed] flag set in the iteration. *)
Definition cleared (s : State) : nat :=
  match after_pipes s with
  | Ok (_, ps2, _) => count_passed ps2 - count_passed (pipes s)
  | IndexError => 0
  end.

(** Bird [i] starts the iteration alive and is dead after the loop over
    the obstacles: it has collided. *)
Definition collides (s : State) (i : nat) : bool :=
  match after_pipes s with
  | Ok (ags2, _, _) => alive_at (agents s) i && negb (alive_at ags2 i)
  | IndexError => false
  end.

(** Bird [i] comes out of the loop over the obstacles alive and ends the
    iteration dead: it has hit the ground or left through the top. *)
Definition falls_out (s : State) (i : nat) : bool :=
  match after_pipes s, tick s with
  | Ok (ags2, _, _), Ok s' =>
      alive_at ags2 i && negb (alive_at (agents s') i)
  | _, _ => false
  end.

(** Over the iterations of a run: those bird [i] started alive, the
    iterations with a pass event, the obstacles cleared, and whether bird
    [i] ever collided or fell out. *)
Definition ticks_alive (i : nat) (hist : list State) : nat :=
  length (filter (fun s => alive_at (agents s) i) hist).

Definition pass_events (hist : list State) : nat :=
  length (filter pass_event hist).

Definition obstacles_cleared (hist : list State) : nat :=
  list_sum (map cleared hist).

Definition ever_collides (i : nat) (hist : list State) : bool :=
  existsb (fun s => collides s i) hist.

Definition ever_falls_out (i : nat) (hist : list State) : bool :=
  existsb (fun s => falls_out s i) hist.

(** The state a run ends in, when it ends by [break] or is cut short by
    the fuel. *)
Definition final_state (o : outcome) : option State :=
  match o with
  | Returned s | OutOfFuel s => Some s
  | Raised | Exited => None
  end.

End Evaluation.

Arguments bird {w} a.
Arguments net {w} a.
Arguments genome {w} a.
Arguments fitness {w} a.
Arguments agents {w} s.
Arguments pipes {w} s.
Arguments base {w} s.
Arguments score {w} s.
Arguments rng {w} s.
Arguments GEN {w} s.
Arguments is_alive {w} a.
Arguments alive_birds {w} s.
Arguments ref_x {w} ags.
Arguments reward {w} a.
Arguments render {w} a.
Arguments alive_at {w} ags i.
Arguments Returned {w} s.
Arguments Raised {w}.
Arguments Exited {w}.
Arguments OutOfFuel {w} s.
Arguments final_state {w} o.
Arguments ticks_alive {w} i hist.
Arguments strike_all {w} ps a.

End Neat.


(** ** main.py: the manually played session *)

Module Manual.

Inductive Key := K_SPACE | K_UP | K_ESCAPE | K_OTHER.

Inductive Event := QUIT | KEYDOWN (key : Key) | OTHER_EVENT.

Section Session.

Context (w : World).

Record State := mkState {
  bird : Bird.t;
  pipes : list Pipe.t;
  base : Base.t;
  score : Z;
  rng : Random.t;
  run : bool
}.

(** [for event in pygame.event.get()], with its two [break]s. *)
Fixpoint poll (events : list Event) (b : Bird.t) (r : bool) : Bird.t * bool :=
  match events with
  | [] => (b, r)
  | QUIT :: _ => (b, false)
  | KEYDOWN k :: rest =>
      let b1 := match k with
                | K_SPACE | K_UP => Bird.jump b
                | _ => b
                end in
      match k with
      | K_ESCAPE => (b1, false)
      | _ => poll rest b1 r
      end
  | OTHER_EVENT :: rest => poll rest b r
  end.

Definition off_screen (p : Pipe.t) : bool :=
  (Pipe.x p + Z.of_nat (pipe_img_width w) <? 0)%Z.

(** [for p in pipes].  A collision draws the window, which advances the
    bird's animation, and clears [run]. *)
Fixpoint pipe_loop (ps : list Pipe.t) (b : Bird.t) (r add_pipe : bool)
  : Bird.t * list Pipe.t * bool * bool :=
  match ps with
  | [] => (b, [], r, add_pipe)
  | p :: rest =>
      let p1 := Pipe.move p in
      let hit := Pipe.collide (overlap w) p1 b in
      let b1 := if hit then Bird.draw b else b in
      let r1 := if hit then false else r in
      let crossing := negb (Pipe.passed p1) && (Pipe.x p1 <? Bird.x b1)%Z in
      let p2 := if crossing then Pipe.set_passed p1 else p1 in
      let '(b2, rest', r2, add') :=
        pipe_loop rest b1 r1 (add_pipe || crossing) in
      (b2, p2 :: rest', r2, add')
  end.

Definition out_of_bounds (base_y : Z) (b : Bird.t) : bool :=
  Qle_bool (inject_Z base_y)
           (Bird.y b + inject_Z (Z.of_nat (bird_img_height w (Bird.img b))))
  || Qltb (Bird.y b) 0.

(** One iteration of [while run], [events] being what the queue holds. *)
Definition iteration (events : list Event) (s : State) : State :=
  let (b0, r0) := poll events (bird s) (run s) in
  let b1 := Bird.move b0 in
  let '(b2, ps2, r2, add_pipe) := pipe_loop (pipes s) b1 r0 false in
  let kept := filter (fun p => negb (off_screen p)) ps2 in
  let '(score3, ps3, g3) :=
    if add_pipe
    then let (np, g') :=
           Pipe.init (pipe_img_height w) (WIN_WIDTH + 100) (rng s) in
         ((score s + 1)%Z, kept ++ [np], g')
    else (score s, kept, rng s) in
  let out := out_of_bounds (Base.y (base s)) b2 in
  let b4 := if out then Bird.draw b2 else b2 in
  let r4 := if out then false else r2 in
  let base' := Base.move (Z.of_nat (base_img_width w)) (base s) in
  mkState (Bird.draw b4) ps3 base' score3 g3 r4.

(** [main()] up to [while]. *)
Definition start (g : Random.t) : State :=
  let (p, g') := Pipe.init (pipe_img_height w) 700 g in
  mkState (Bird.init 230 350) [p]
          (Base.init (Z.of_nat (base_img_width w)) 730) 0 g' true.

(** [while run], one batch of events per iteration; the session is over
    when [run] is cleared. *)
Fixpoint session (inputs : list (list Event)) (s : State) : State :=
  match inputs with
  | [] => s
  | events :: rest =>
      if run s then session rest (iteration events s) else s
  end.

End Session.

End Manual.

(** ** Sample worlds

    Worlds on which the model is run.  Sprite sizes are those of the usual
    image set after [scale2x]: bird frames 68 x 48, pipe 104 x 640, base
    672 x 224.  A genome is the function its network computes, which may
    depend on how many times the network has been activated; the state of
    a network is that count, next to the function. *)

Definition Policy : Type := nat -> Q -> Q -> Q -> Q.

Definition mask_size (m : Mask) : Z * Z :=
  match m with
  | BirdMask _ => (68, 48)%Z
  | PipeTopMask | PipeBottomMask => (104, 640)%Z
  end.

(** [Mask.overlap] when every pixel of every sprite is opaque: the two
    rectangles meet, [offset] being the corner of the second one seen from
    the first. *)
Definition box_overlap (m1 m2 : Mask) (offset : Z * Z) : bool :=
  let (w1, h1) := mask_size m1 in
  let (w2, h2) := mask_size m2 in
  let (ox, oy) := offset in
  ((ox <? w1) && (0 <? ox + w2) && (oy <? h1) && (0 <? oy + h2))%Z.

Definition box_world : World :=
  {| Genome := Policy;
     NetSt := nat * Policy;
     create_net := fun f => (0%nat, f);
     activate := fun n a b c => (snd n (fst n) a b c, (S (fst n), snd n));
     overlap := box_overlap;
     bird_img_height := fun _ => 48%nat;
     pipe_img_width := 104%nat;
     pipe_img_height := 640%nat;
     base_img_width := 672%nat |}.

(** A network that never asks for a jump, one that always does, and one
    that jumps when the lower edge of the gap is less than 70 away. *)
Definition glider : Policy := fun _ _ _ _ => 0.
Definition flapper : Policy := fun _ _ _ _ => 1.
Definition pilot : Policy :=
  fun _ _ _ bottom_dist => if Qltb bottom_dist 70 then 1 else 0.

(** A generator whose every sample is [r]. *)
Definition constant_rng (r : Z) : Random.t := Random.mk (fun _ => r) 0.

(** Some cohorts, and the state of a generation of one of them after [n]
    iterations, the generator drawing the gap at 200 every time and nobody
    closing the window. *)
Definition sample_rng : Random.t := constant_rng 150.

Definition duo : list (Z * Policy) := [(1%Z, pilot); (2%Z, flapper)].

Definition pair : list (Z * Policy) := [(1%Z, glider); (2%Z, pilot)].

Definition solo : list (Z * Policy) := [(1%Z, glider)].

Definition ace : list (Z * Policy) := [(1%Z, pilot)].

(** A bird at rest, for the places where a list needs a default. *)
Definition idle : Neat.Agent box_world :=
  Neat.mkAgent box_world (Bird.init 230 350) (0%nat, glider) glider 0.

Definition state_after (n : nat) (genomes : list (Z * Policy))
  : Neat.State box_world :=
  match Neat.eval_genomes box_world n [] genomes 0 sample_rng with
  | Neat.Returned s | Neat.OutOfFuel s => s
  | _ => Neat.start box_world genomes 0 sample_rng
  end.

(** A state with two obstacles not yet passed, both about to be. *)
Definition twin_scene : Neat.State box_world :=
  Neat.mkState box_world
    [Neat.mkAgent box_world (Bird.init 230 350) (0%nat, glider) glider 0]
    [Pipe.mk 232 false 200 (-440) 350; Pipe.mk 231 false 100 (-540) 250]
    (Base.init 672 730) 0 sample_rng 1.

(** ** Notions for the further properties *)

(** The three things the loops do to a bird. *)
Inductive bird_op := DoJump | DoMove | DoDraw.

Definition apply_op (b : Bird.t) (o : bird_op) : Bird.t :=
  match o with
  | DoJump => Bird.jump b
  | DoMove => Bird.move b
  | DoDraw => Bird.draw b
  end.

Definition apply_ops (ops : list bird_op) (b : Bird.t) : Bird.t :=
  fold_left apply_op ops b.

(** The bird both loops create, [n] ticks later, never having jumped. *)
Definition glide (n : nat) : Bird.t := Nat.iter n Bird.move (Bird.init 230 350).

(** A world none of whose networks ever asks for a jump. *)
Definition calm (w : World) : Prop :=
  forall n a b c, fst (activate w n a b c) <= 0.5.

(** Nobody closes the window. *)
Definition no_quit (quits : list bool) : Prop := forallb negb quits = true.

(** Where an obstacle of a generation can be: not yet off screen to the
    left, not right of where the first one starts, left of the birds when
    passed and not left of them otherwise; and how it is shaped. *)
Definition placed (w : World) (p : Pipe.t) : Prop :=
  (0 <= Pipe.x p + Z.of_nat (pipe_img_width w))%Z /\
  (Pipe.x p <= 700)%Z /\
  (Pipe.passed p = true -> Pipe.x p < 230)%Z /\
  (Pipe.passed p = false -> 230 <= Pipe.x p)%Z /\
  (50 <= Pipe.height p < 350)%Z /\
  Pipe.bottom p = (Pipe.height p + 150)%Z /\
  Pipe.top p = (Pipe.height p - Z.of_nat (pipe_img_height w))%Z.

(** Obstacles listed from left to right, each 446 or more from the next. *)
Definition spaced (ps : list Pipe.t) : Prop :=
  StronglySorted (fun p q => (Pipe.x p + 446 <= Pipe.x q)%Z) ps.

Definition on_course (w : World) (s : Neat.State w) : Prop :=
  Neat.well_formed w s /\ spaced (Neat.pipes s) /\
  Forall (placed w) (Neat.pipes s).

(** The events that end the manual session. *)
Definition ends_game (e : Manual.Event) : bool :=
  match e with
  | Manual.QUIT | Manual.KEYDOWN Manual.K_ESCAPE => true
  | _ => false
  end.

(** The score after [n] iterations, and where the obstacle not yet passed
    is then. *)
Definition score_at (n : Z) : Z :=
  if (n <? 95)%Z then 0%Z else (1 + (n - 95) / 90)%Z.

Definition frontier (n : Z) : Z :=
  if (n <? 95)%Z then (700 - 5 * n)%Z else (676 - 5 * ((n - 95) mod 90))%Z.

(** How many iterations a manual session makes of its inputs. *)
Fixpoint played (w : World) (inputs : list (list Manual.Event))
         (m : Manual.State) : nat :=
  match inputs with
  | [] => 0%nat
  | events :: rest =>
      if Manual.run m then S (played w rest (Manual.iteration w events m))
      else 0%nat
  end.

(** The key presses that make the bird jump. *)
Definition is_jump (e : Manual.Event) : bool :=
  match e with
  | Manual.KEYDOWN Manual.K_SPACE | Manual.KEYDOWN Manual.K_UP => true
  | _ => false
  end.

(** A world all of whose networks ask for a jump every time. *)
Definition eager (w : World) : Prop :=
  forall n a b c, 0.5 < fst (activate w n a b c).

(** The bird both loops create, after [n] ticks with a jump in each. *)
Definition soar (n : nat) : Bird.t :=
  Nat.iter n (fun b => Bird.jump (Bird.move b)) (Bird.init 230 350).

(** The sample world with networks that count their activations and never
    ask for a jump. *)
Definition calm_world : World :=
  {| Genome := unit;
     NetSt := nat;
     create_net := fun _ => 0%nat;
     activate := fun n _ _ _ => (0, S n);
     overlap := box_overlap;
     bird_img_height := fun _ => 48%nat;
     pipe_img_width := 104%nat;
     pipe_img_height := 640%nat;
     base_img_width := 672%nat |}.

(** The sample world with networks that always ask for a jump. *)
Definition eager_world : World :=
  {| Genome := unit;
     NetSt := nat;
     create_net := fun _ => 0%nat;
     activate := fun n _ _ _ => (1, S n);
     overlap := box_overlap;
     bird_img_height := fun _ => 48%nat;
     pipe_img_width := 104%nat;
     pipe_img_height := 640%nat;
     base_img_width := 672%nat |}.

(** A cohort of [box_world] whose generation ends: one bird never jumps,
    the other always does. *)
Definition mixed : list (Z * Policy) := [(1%Z, glider); (2%Z, flapper)].

(** A manual session of [box_world] at its start, and 26 empty batches of
    events. *)
Definition fresh_session : Manual.State := Manual.start box_world sample_rng.

Definition idle_inputs : list (list Manual.Event) := repeat [] 26.

(** ** The draw of a height

    [random.randrange(50, 350)] seen from the raw sample it consumes: the
    first [n] values a raw sample can take, and the height an obstacle gets
    when the sample is [r]. *)



(** ** The fitness as the program holds it

    [genome.fitness] is set to 0 and is a Python float from its first
    [+= 0.1] on.  The loop never reads it: which updates a genome receives
    is decided by the birds and the obstacles alone.  The four updates of
    an iteration of [eval_genomes] are written here over an arithmetic
    that is a parameter, to be read in binary64, which is what the program
    holds, and in exact arithmetic, which is the [fitness] of
    [Neat.Agent]. *)

Record Arith := mkArith {
  num : Type;
  initial : num;
  plus : num -> num -> num;
  minus : num -> num -> num;
  gain : num;
  bonus : num;
  penalty : num
}.

Definition exact : Arith := mkArith Q 0 Qplus Qminus 0.1 5 1.

Definition binary64 : Arith :=
  mkArith float 0%float PrimFloat.add PrimFloat.sub 0.1%float 5%float 1%float.

Section Accounts.

Import Neat.

Context (w : World) (A : Arith).

(** [if bird.alive and pipe.collide(bird): ... ge[i].fitness -= 1], for one
    bird and one obstacle: the bird after the test, and the fitness. *)
Definition strike_fee (p : Pipe.t) (af : Agent w * num A) : Agent w * num A :=
  let (a, f) := af in
  (strike w p a,
   if is_alive a && Pipe.collide (overlap w) p (bird a)
   then minus A f (penalty A) else f).

(** What an iteration makes of the fitness [f] of the genome of bird [a],
    [lead] being [pipes[pipe_ind]]: [+= 0.1] in the first loop if the bird
    is alive, [-= 1] in the loop over the obstacles when it collides,
    [+= 5] if [add_pipe], [-= 1] in the last loop when it is out of
    bounds. *)
Definition account (s : State w) (lead : Pipe.t) (a : Agent w) (f : num A)
  : num A :=
  let f1 := if is_alive a then plus A f (gain A) else f in
  let (a2, f2) :=
    fold_left (fun af p => strike_fee (Pipe.move p) af) (pipes s)
              (decide w lead a, f1) in
  let f3 := if pass_event w s then plus A f2 (bonus A) else f2 in
  if is_alive a2 && out_of_bounds w (Base.y (base s)) (bird a2)
  then minus A f3 (penalty A) else f3.

Definition account_at (i : nat) (f : num A) (s : State w) : num A :=
  match nth_error (agents s) i, nth_error (pipes s) (pipe_ind w s) with
  | Some a, Some lead => account s lead a f
  | _, _ => f
  end.

(** [ge[i].fitness] after the iterations started in the states [hist]. *)
Definition fitness_after (i : nat) (hist : list (State w)) : num A :=
  fold_left (account_at i) hist (initial A).

(** The updates of an iteration for a bird that is alive and stays so:
    0.1, then 5 if an obstacle is passed. *)
Definition earn (f : num A) (s : State w) : num A :=
  let f1 := plus A f (gain A) in
  if pass_event w s then plus A f1 (bonus A) else f1.

End Accounts.

(** The iterations of a run that bird [i] started alive, the obstacles
    cleared in them, and whether an obstacle was passed in an iteration
    the bird did not start alive. *)
Definition lived (w : World) (i : nat) (hist : list (Neat.State w))
  : list (Neat.State w) :=
  filter (fun s => Neat.alive_at (Neat.agents s) i) hist.

Definition cleared_while_alive (w : World) (i : nat)
           (hist : list (Neat.State w)) : nat :=
  list_sum (map (Neat.cleared w) (lived w i hist)).

Definition bonus_after_death (w : World) (i : nat)
           (hist : list (Neat.State w)) : bool :=
  existsb (fun s => negb (Neat.alive_at (Neat.agents s) i)
                    && Neat.pass_event w s) hist.

(** * Properties *)

(** ** Comparisons on [Q] *)

Lemma Qltb_true (a b : Q) : Qltb a b = true <-> a < b.
Proof.
  unfold Qltb. rewrite negb_true_iff, <- not_true_iff_false, Qle_bool_iff.
  split; [apply Qnot_le_lt | apply Qlt_not_le].
Qed.

Lemma Qltb_false (a b : Q) : Qltb a b = false <-> b <= a.
Proof.
  unfold Qltb. rewrite negb_false_iff. apply Qle_bool_iff.
Qed.

Lemma Qle_bool_false (a b : Q) : Qle_bool a b = false <-> b < a.
Proof.
  rewrite <- not_true_iff_false, Qle_bool_iff.
  split; [apply Qnot_le_lt | apply Qlt_not_le].
Qed.

(** ** Bird physics *)

Section BirdPhysics.

Import Bird.

(** The three cases of the displacement, on the raw quadratic [d]. *)
Lemma displacement_cases (v : Q) (tc : Z) :
  let d := v * inject_Z tc + 0.5 * 3 * inject_Z (tc ^ 2) in
  (16 <= d -> displacement v tc = 16) /\
  (d < 0 -> displacement v tc = d - 2) /\
  (0 <= d /\ d < 16 -> displacement v tc = d).
Proof.
  intro d. unfold displacement. fold d. repeat split.
  - intro H. apply Qle_bool_iff in H. rewrite H. reflexivity.
  - intro H.
    assert (H16 : Qle_bool 16 d = false) by (apply Qle_bool_false; lra).
    rewrite H16. apply Qltb_true in H. rewrite H. reflexivity.
  - intros [H0 H16]. apply Qle_bool_false in H16. rewrite H16.
    apply Qltb_false in H0. rewrite H0. reflexivity.
Qed.

Lemma displacement_le_16 (v : Q) (tc : Z) : displacement v tc <= 16.
Proof.
  unfold displacement.
  set (d := v * inject_Z tc + 0.5 * 3 * inject_Z (tc ^ 2)).
  destruct (Qle_bool 16 d) eqn:E16.
  - cbn. lra.
  - apply Qle_bool_false in E16.
    destruct (Qltb d 0) eqn:E0; [apply Qltb_true in E0 |]; lra.
Qed.

(** C8: [move] adds one to the tick counter, takes
    d = vel * ticks + 0.5 * 3 * ticks^2 on the new counter, turns it into 16
    when d >= 16 and into d - 2 when d < 0, adds the result to [y], and
    leaves [x] and [vel] (and [height], the frame and [alive]) as they
    were. *)
Theorem move_advances_one_tick (b : Bird.t) :
  let ticks := (tick_count b + 1)%Z in
  let d := vel b * inject_Z ticks + 0.5 * 3 * inject_Z (ticks ^ 2) in
  tick_count (move b) = ticks /\
  (16 <= d -> y (move b) = y b + 16) /\
  (d < 0 -> y (move b) = y b + (d - 2)) /\
  (0 <= d /\ d < 16 -> y (move b) = y b + d) /\
  x (move b) = x b /\ vel (move b) = vel b /\
  height (move b) = height b /\ img (move b) = img b /\
  img_count (move b) = img_count b /\ alive (move b) = alive b.
Proof.
  intros ticks d.
  destruct (displacement_cases (vel b) ticks) as (Hhi & Hneg & Hmid).
  fold d in Hhi, Hneg, Hmid.
  split; [reflexivity |].
  split; [intro H; cbn; fold ticks; rewrite (Hhi H); reflexivity |].
  split; [intro H; cbn; fold ticks; rewrite (Hneg H); reflexivity |].
  split; [intro H; cbn; fold ticks; rewrite (Hmid H); reflexivity |].
  repeat split.
Qed.

(** After a jump and [n] ticks the counter reads [n] and the velocity is
    still the impulse. *)
Lemma after_jump_counter (b : Bird.t) (n : nat) :
  tick_count (after_jump b n) = Z.of_nat n /\ vel (after_jump b n) = -9.5.
Proof.
  induction n as [| n [IHt IHv]].
  - split; reflexivity.
  - unfold after_jump in *. rewrite Nat.iter_succ. cbn [move tick_count vel].
    rewrite IHt. split; [lia | exact IHv].
Qed.

Lemma rise_displacement (b : Bird.t) (n : nat) :
  rise b n == displacement (-9.5) (Z.of_nat n + 1).
Proof.
  unfold rise. destruct (after_jump_counter b n) as [Ht Hv].
  unfold after_jump in *. rewrite Nat.iter_succ. cbn [move y].
  rewrite Ht, Hv. ring.
Qed.

(** From the eighth tick on the fall is at its cap. *)
Lemma displacement_capped (n : nat) :
  (7 <= n)%nat -> displacement (-9.5) (Z.of_nat n + 1) = 16.
Proof.
  intro H.
  destruct (displacement_cases (-9.5) (Z.of_nat n + 1)) as (Hhi & _).
  apply Hhi. unfold Qle. cbn -[Z.mul Z.add Z.pow Z.of_nat].
  rewrite Z.pow_2_r. nia.
Qed.

(** The first seven ticks, one by one. *)
Lemma displacement_profile :
  map (fun n => Qred (displacement (-9.5) (Z.of_nat n + 1)))
      [0; 1; 2; 3; 4; 5; 6]%nat
  = [-10; -15; -17; -16; -12; -5; 7].
Proof. vm_compute. reflexivity. Qed.

Lemma displacement_small (n : nat) :
  (n <= 6)%nat ->
  displacement (-9.5) (Z.of_nat n + 1)
  == nth n [-10; -15; -17; -16; -12; -5; 7] 16.
Proof.
  intro H.
  do 7 (destruct n as [| n]; [vm_compute; reflexivity |]).
  lia.
Qed.

Lemma rise_value (b : Bird.t) (n : nat) :
  rise b n == nth n [-10; -15; -17; -16; -12; -5; 7] 16.
Proof.
  rewrite rise_displacement. destruct (le_lt_dec n 6) as [Hle | Hgt].
  - apply displacement_small, Hle.
  - rewrite displacement_capped by lia.
    rewrite nth_overflow by (cbn; lia). reflexivity.
Qed.

Lemma rise_next (b : Bird.t) (n : nat) :
  (2 <= n)%nat -> rise b n <= rise b (S n).
Proof.
  intro H. rewrite !rise_value.
  do 2 (destruct n as [| n]; [lia |]).
  do 5 (destruct n as [| n]; [cbn; lra |]).
  destruct n; cbn; lra.
Qed.

(** C4: after a jump (velocity -9.5, gravity 3) the displacements of the
    successive ticks are -10, -15, -17, -16, -12, -5, 7, 16, 16, ...: each
    is at most 16, they are negative (upward) for the first six ticks
    exactly, and from the third tick on (so in particular once the upward
    phase is over) they never decrease.  No tick of any bird moves it down
    by more than 16. *)
Theorem displacement_after_jump (b : Bird.t) (n m : nat) :
  y (move b) <= y b + 16 /\
  rise b n <= 16 /\
  (rise b n < 0 <-> (n <= 5)%nat) /\
  ((2 <= n)%nat -> (n <= m)%nat -> rise b n <= rise b m).
Proof.
  split; [| split; [| split]].
  - cbn. pose proof (displacement_le_16 (vel b) (tick_count b + 1)). lra.
  - rewrite rise_displacement. apply displacement_le_16.
  - rewrite rise_value. split.
    + intro H. destruct (le_lt_dec n 5) as [Hle | Hgt]; [exact Hle |].
      exfalso. do 6 (destruct n as [| n]; [lia |]).
      destruct n as [| n]; [cbn in H; lra |].
      rewrite nth_overflow in H by (cbn; lia). lra.
    + intro H. do 6 (destruct n as [| n]; [cbn; lra |]). lia.
  - intros H2 Hnm. induction Hnm as [| m Hnm IH].
    + apply Qle_refl.
    + eapply Qle_trans; [exact IH |]. apply rise_next. lia.
Qed.

End BirdPhysics.

(** ** Obstacles *)

Section Obstacles.

Import Pipe.

Lemma randrange_bounds (start stop : Z) (g : Random.t) :
  (start < stop)%Z ->
  (start <= fst (Random.randrange start stop g) < stop)%Z.
Proof.
  intro H. unfold Random.randrange, Random.randbelow. cbn.
  pose proof (Z.mod_pos_bound (Random.raw g (Random.pos g)) (stop - start)).
  lia.
Qed.

Lemma set_height_fields (top_h : nat) (p : Pipe.t) (g : Random.t) :
  let q := fst (set_height top_h p g) in
  x q = x p /\ passed q = passed p /\
  height q = fst (Random.randrange 50 350 g) /\
  top q = (height q - Z.of_nat top_h)%Z /\
  bottom q = (height q + GAP)%Z.
Proof. repeat split. Qed.








End Obstacles.

(** ** The ground *)

Section Ground.

Import Base.

Lemma move_adjacent (W : Z) (b : Base.t) :
  adjacent W b -> adjacent W (move W b).
Proof.
  unfold adjacent, move. cbn.
  destruct (x1 b - VEL + W <? 0)%Z eqn:E1;
    destruct (_ + W <? 0)%Z eqn:E2 in |- *; cbn; lia.
Qed.

Lemma move_anchored (W : Z) (b : Base.t) :
  (5 <= W)%Z -> adjacent W b -> anchored W b -> anchored W (move W b).
Proof.
  unfold adjacent, anchored, move, VEL. cbn. intros HW Hadj Hanc.
  destruct (x1 b - 5 + W <? 0)%Z eqn:E1.
  - destruct (x2 b - 5 + W <? 0)%Z eqn:E2; cbn;
      apply Z.ltb_lt in E1 || apply Z.ltb_ge in E1;
      apply Z.ltb_lt in E2 || apply Z.ltb_ge in E2; lia.
  - destruct (x2 b - 5 + W <? 0)%Z eqn:E2; cbn;
      apply Z.ltb_ge in E1;
      apply Z.ltb_lt in E2 || apply Z.ltb_ge in E2; lia.
Qed.

(** C5: from [x1 = 0], [x2 = W], after any number of ticks of the ground
    the two offsets are exactly [W] apart, whichever of the two is the
    left one after the wraparounds; when the segment is at least as wide
    as the window, the left one starts at or before the left edge and the
    pair reaches beyond the right edge, so the ground has no gap. *)
Theorem ground_segments_adjacent (W y0 : Z) (n : nat) :
  let b := after W y0 n in
  Z.abs (x1 b - x2 b) = Z.abs W /\
  (x2 b = x1 b + W \/ x1 b = x2 b + W)%Z /\
  y b = y0 /\
  ((WIN_WIDTH <= W)%Z ->
   (Z.min (x1 b) (x2 b) <= 0)%Z /\
   (WIN_WIDTH <= Z.min (x1 b) (x2 b) + 2 * W)%Z).
Proof.
  intro b.
  assert (Hadj : adjacent W b).
  { subst b. unfold after. induction n as [| n IH].
    - left. reflexivity.
    - rewrite Nat.iter_succ. apply move_adjacent, IH. }
  assert (Hy : y b = y0).
  { subst b. unfold after. clear Hadj.
    induction n as [| n IH]; [reflexivity |].
    rewrite Nat.iter_succ. exact IH. }
  split; [destruct Hadj; lia |]. split; [exact Hadj |]. split; [exact Hy |].
  intro HW. unfold WIN_WIDTH in *.
  assert (Hanc : adjacent W b /\ anchored W b).
  { subst b. unfold after. clear Hadj Hy. induction n as [| n [IHa IHb]].
    - split; [left; reflexivity |]. unfold anchored. cbn. lia.
    - rewrite Nat.iter_succ. split.
      + apply move_adjacent, IHa.
      + apply move_anchored; [lia | exact IHa | exact IHb]. }
  destruct Hanc as [_ Hanc]. unfold anchored in Hanc. lia.
Qed.

End Ground.

(** ** The evaluation loop *)

Section EvaluationFacts.

Import Neat.

Context (w : World).

Implicit Types (a : Agent w) (s : State w) (ags : list (Agent w)).

(** *** One bird through the phases of an iteration *)

Lemma draw_alive (b : Bird.t) : Bird.alive (Bird.draw b) = Bird.alive b.
Proof. unfold Bird.draw. destruct (Bird.tilt b <=? -80)%Z; reflexivity. Qed.

Lemma draw_x (b : Bird.t) : Bird.x (Bird.draw b) = Bird.x b.
Proof. unfold Bird.draw. destruct (Bird.tilt b <=? -80)%Z; reflexivity. Qed.

Lemma decide_dead lead a : is_alive a = false -> decide w lead a = a.
Proof. intro H. unfold decide. rewrite H. reflexivity. Qed.

Lemma decide_alive lead a :
  is_alive a = true ->
  is_alive (decide w lead a) = true /\
  fitness (decide w lead a) = fitness a + 0.1 /\
  genome (decide w lead a) = genome a /\
  Bird.x (bird (decide w lead a)) = Bird.x (bird a).
Proof.
  intro H. unfold decide. rewrite H.
  destruct (activate w (net a) _ _ _) as [out n'].
  unfold is_alive in *. cbn [bird fitness genome].
  destruct (Qltb 0.5 out); cbn; auto.
Qed.

Lemma decide_x lead a : Bird.x (bird (decide w lead a)) = Bird.x (bird a).
Proof.
  destruct (is_alive a) eqn:H.
  - apply decide_alive, H.
  - rewrite decide_dead by exact H. reflexivity.
Qed.

Lemma decide_genome lead a : genome (decide w lead a) = genome a.
Proof.
  destruct (is_alive a) eqn:H.
  - apply decide_alive, H.
  - rewrite decide_dead by exact H. reflexivity.
Qed.

Lemma strike_dead p a : is_alive a = false -> strike w p a = a.
Proof. intro H. unfold strike. rewrite H. reflexivity. Qed.

Lemma strike_x p a : Bird.x (bird (strike w p a)) = Bird.x (bird a).
Proof. unfold strike. destruct (_ && _); reflexivity. Qed.

Lemma strike_all_dead ps a : is_alive a = false -> strike_all ps a = a.
Proof.
  intro H. unfold strike_all. induction ps as [| p ps IH]; [reflexivity |].
  cbn [fold_left]. rewrite strike_dead by exact H. exact IH.
Qed.

(** A bird leaves the loop over the obstacles as it entered it, or dead
    and one point poorer. *)
Lemma strike_all_cases ps a :
  strike_all ps a = a \/
  (is_alive a = true /\
   strike_all ps a
   = mkAgent w (Bird.kill (bird a)) (net a) (genome a) (fitness a - 1)).
Proof.
  unfold strike_all. induction ps as [| p ps IH] using rev_ind.
  - left. reflexivity.
  - rewrite fold_left_app. cbn [fold_left].
    destruct IH as [IH | [Hal IH]]; rewrite IH.
    + unfold strike. destruct (is_alive a) eqn:Hal; cbn [andb].
      * destruct (Pipe.collide _ _ _); [right; split; reflexivity | left; reflexivity].
      * left. reflexivity.
    + right. split; [exact Hal |]. apply strike_dead. reflexivity.
Qed.

Lemma strike_all_x ps a : Bird.x (bird (strike_all ps a)) = Bird.x (bird a).
Proof.
  destruct (strike_all_cases ps a) as [H | [_ H]]; rewrite H; reflexivity.
Qed.

Lemma ref_x_map (f : Agent w -> Agent w) ags :
  (forall a, Bird.x (bird (f a)) = Bird.x (bird a)) ->
  ref_x (map f ags) = ref_x ags.
Proof. intro H. destruct ags as [| a ags]; [reflexivity | apply H]. Qed.

(** The loop over the obstacles acts on each bird and on each obstacle
    separately. *)
Lemma pipe_loop_spec ps ags add :
  pipe_loop w ps ags add
  = (map (strike_all ps) ags,
     map (advance (ref_x ags)) ps,
     add || existsb (fun p => crossed (ref_x ags) (Pipe.move p)) ps).
Proof.
  revert ags add. induction ps as [| p ps IH]; intros ags add.
  - cbn. rewrite map_id, orb_false_r. reflexivity.
  - cbn [pipe_loop]. rewrite IH.
    rewrite (ref_x_map (strike w (Pipe.move p))) by (intro; apply strike_x).
    rewrite map_map. cbn [map existsb]. rewrite orb_assoc. reflexivity.
Qed.

Lemma after_pipes_spec s :
  after_pipes w s
  = match nth_error (pipes s) (pipe_ind w s) with
    | None => IndexError
    | Some lead =>
        Ok (map (strike_all (pipes s)) (map (decide w lead) (agents s)),
            map (advance (ref_x (agents s))) (pipes s),
            existsb (fun p => crossed (ref_x (agents s)) (Pipe.move p))
                    (pipes s))
    end.
Proof.
  unfold after_pipes, after_decide.
  destruct (nth_error (pipes s) (pipe_ind w s)) as [lead |]; [| reflexivity].
  rewrite pipe_loop_spec.
  rewrite (ref_x_map (decide w lead)) by (intro; apply decide_x).
  reflexivity.
Qed.

Lemma tick_spec s s' :
  tick w s = Ok s' ->
  exists lead,
    nth_error (pipes s) (pipe_ind w s) = Some lead /\
    pass_event w s
    = existsb (fun p => crossed (ref_x (agents s)) (Pipe.move p)) (pipes s) /\
    agents s' = map (agent_after w s lead) (agents s) /\
    score s' = (if pass_event w s then score s + 1 else score s)%Z /\
    pipes s'
    = filter (fun p => negb (off_screen w p))
             (map (advance (ref_x (agents s))) (pipes s))
      ++ (if pass_event w s
          then [fst (Pipe.init (pipe_img_height w) (WIN_WIDTH + 100) (rng s))]
          else []) /\
    base s' = Base.move (Z.of_nat (base_img_width w)) (base s) /\
    GEN s' = GEN s.
Proof.
  unfold tick, agent_after, pass_event. rewrite after_pipes_spec.
  destruct (nth_error (pipes s) (pipe_ind w s)) as [lead |]; [| discriminate].
  intro H. exists lead. split; [reflexivity |]. split; [reflexivity |].
  destruct (existsb _ (pipes s)).
  - destruct (Pipe.init _ _ _) as [np g']. injection H as <-.
    cbn [agents score pipes base GEN fst]. rewrite !map_map.
    repeat split.
  - injection H as <-.
    cbn [agents score pipes base GEN]. rewrite !map_map, app_nil_r.
    repeat split.
Qed.

Lemma tick_agent s s' i a :
  tick w s = Ok s' ->
  nth_error (agents s) i = Some a ->
  exists lead,
    nth_error (pipes s) (pipe_ind w s) = Some lead /\
    nth_error (agents s') i = Some (agent_after w s lead a) /\
    collides w s i
    = is_alive a && negb (is_alive (strike_all (pipes s) (decide w lead a))) /\
    falls_out w s i
    = is_alive (strike_all (pipes s) (decide w lead a))
      && negb (is_alive (agent_after w s lead a)).
Proof.
  intros Ht Ha. destruct (tick_spec s s' Ht) as (lead & Hl & _ & Hags & _).
  exists lead. split; [exact Hl |].
  assert (Ha' : nth_error (agents s') i = Some (agent_after w s lead a))
    by (rewrite Hags; apply map_nth_error, Ha).
  split; [exact Ha' |].
  assert (H2 : alive_at (map (strike_all (pipes s))
                             (map (decide w lead) (agents s))) i
               = is_alive (strike_all (pipes s) (decide w lead a))).
  { unfold alive_at.
    rewrite (map_nth_error _ _ _ (map_nth_error (decide w lead) _ _ Ha)).
    reflexivity. }
  assert (H0 : alive_at (agents s) i = is_alive a)
    by (unfold alive_at; rewrite Ha; reflexivity).
  split.
  - unfold collides. rewrite after_pipes_spec, Hl, H0, H2. reflexivity.
  - unfold falls_out. rewrite after_pipes_spec, Hl, Ht, H2.
    unfold alive_at. rewrite Ha'. reflexivity.
Qed.

Lemma render_facts a :
  is_alive (render a) = is_alive a /\ fitness (render a) = fitness a /\
  genome (render a) = genome a /\ net (render a) = net a /\
  (is_alive a = false -> render a = a).
Proof.
  unfold render, is_alive. destruct (Bird.alive (bird a)) eqn:H; cbn.
  - rewrite draw_alive. repeat split; try assumption. discriminate.
  - repeat split; assumption.
Qed.

Lemma bound_cases by_ a :
  bound w by_ a = a \/
  (is_alive a = true /\
   bound w by_ a
   = mkAgent w (Bird.kill (bird a)) (net a) (genome a) (fitness a - 1)).
Proof.
  unfold bound. destruct (is_alive a) eqn:H; cbn [andb].
  - destruct (out_of_bounds _ _ _); [right; split; reflexivity | left; reflexivity].
  - left. reflexivity.
Qed.

(** The balance of one iteration for one bird: a tenth of a point if it
    started alive, five points if an obstacle was passed, one point off if
    it collided, one point off if it fell out; and it cannot do both. *)
Lemma agent_after_balance s lead a :
  let a2 := strike_all (pipes s) (decide w lead a) in
  let a' := agent_after w s lead a in
  let c := is_alive a && negb (is_alive a2) in
  let f := is_alive a2 && negb (is_alive a') in
  genome a' = genome a /\
  is_alive a' = is_alive a && negb c && negb f /\
  c && f = false /\
  fitness a' == fitness a + (if is_alive a then 0.1 else 0)
                + (if pass_event w s then 5 else 0)
                - (if c then 1 else 0) - (if f then 1 else 0) /\
  (is_alive a = false ->
   bird a' = bird a /\ net a' = net a /\
   fitness a' = (if pass_event w s then fitness a + 5 else fitness a) /\
   c = false /\ f = false).
Proof.
  intros a2 a' c f. subst a' c f. unfold agent_after. fold a2.
  set (a3 := if pass_event w s then reward a2 else a2).
  assert (H3 : is_alive a3 = is_alive a2 /\ genome a3 = genome a2 /\
               bird a3 = bird a2 /\ net a3 = net a2 /\
               fitness a3 = (if pass_event w s then fitness a2 + 5
                             else fitness a2)).
  { subst a3. destruct (pass_event w s); repeat split. }
  destruct H3 as (Hal3 & Hg3 & Hb3 & Hn3 & Hf3).
  destruct (render_facts (bound w (Base.y (base s)) a3))
    as (Hal5 & Hf5 & Hg5 & Hn5 & Hid5).
  rewrite Hal5, Hf5, Hg5.
  destruct (is_alive a) eqn:Hal.
  - destruct (decide_alive lead a Hal) as (Hal1 & Hf1 & Hg1 & _).
    split; [| split; [| split; [| split; [| discriminate]]]].
    + destruct (bound_cases (Base.y (base s)) a3) as [H4 | [_ H4]];
        rewrite H4; cbn [genome]; rewrite Hg3; subst a2;
        destruct (strike_all_cases (pipes s) (decide w lead a))
          as [H2 | [_ H2]]; rewrite H2; cbn [genome]; exact Hg1.
    + destruct (is_alive a2) eqn:Hal2; cbn [andb negb].
      * destruct (is_alive (bound _ _ _)); reflexivity.
      * destruct (bound_cases (Base.y (base s)) a3) as [H4 | [H4 _]].
        -- rewrite H4, Hal3. reflexivity.
        -- congruence.
    + destruct (is_alive a2); reflexivity.
    + destruct (strike_all_cases (pipes s) (decide w lead a))
        as [H2 | [_ H2]]; fold a2 in H2.
      * assert (Hal2 : is_alive a2 = true) by (rewrite H2; exact Hal1).
        rewrite Hal2. cbn [andb negb].
        destruct (bound_cases (Base.y (base s)) a3) as [H4 | [_ H4]];
          rewrite H4.
        -- rewrite Hal3, Hal2, Hf3, H2, Hf1. cbn [negb].
           destruct (pass_event w s); lra.
        -- cbn [fitness is_alive bird Bird.kill Bird.alive negb].
           rewrite Hf3, H2, Hf1. destruct (pass_event w s); lra.
      * assert (Hal2 : is_alive a2 = false) by (rewrite H2; reflexivity).
        rewrite Hal2. cbn [andb negb].
        destruct (bound_cases (Base.y (base s)) a3) as [H4 | [H4 _]];
          [| congruence].
        rewrite H4, Hf3, H2. cbn [fitness]. rewrite Hf1.
        destruct (pass_event w s); lra.
  - assert (H2 : a2 = a)
      by (subst a2; rewrite decide_dead, strike_all_dead by exact Hal;
          reflexivity).
    assert (Hal3' : is_alive a3 = false) by (rewrite Hal3, H2; exact Hal).
    destruct (bound_cases (Base.y (base s)) a3) as [H4 | [H4 _]];
      [| congruence].
    rewrite ?Hid5 by (rewrite H4; exact Hal3').
    rewrite H4, Hal3, Hg3, Hf3, Hb3, Hn3, H2, Hal. cbn [andb negb].
    split; [reflexivity |]. split; [reflexivity |]. split; [reflexivity |].
    split; [destruct (pass_event w s); lra |].
    intros _. repeat split.
Qed.

(** *** A whole run *)

Lemma count_cons {A : Type} (f : A -> bool) (x : A) (l : list A) :
  inject_Z (Z.of_nat (length (filter f (x :: l))))
  == (if f x then 1 else 0) + inject_Z (Z.of_nat (length (filter f l))).
Proof.
  cbn [filter]. destruct (f x); [| lra].
  cbn [length]. rewrite Nat2Z.inj_succ, <- Z.add_1_r, inject_Z_plus.
  change (inject_Z 1) with 1. lra.
Qed.

(** The balance of a run for one bird, from any state on. *)
Lemma run_balance fuel : forall quits s sf i a,
  final_state (loop w fuel quits s) = Some sf ->
  nth_error (agents s) i = Some a ->
  let hist := history w fuel quits s in
  let ec := ever_collides w i hist in
  let ef := ever_falls_out w i hist in
  exists af,
    nth_error (agents sf) i = Some af /\
    genome af = genome a /\
    is_alive af = is_alive a && negb ec && negb ef /\
    ec && ef = false /\
    fitness af == fitness a
                  + 0.1 * inject_Z (Z.of_nat (ticks_alive i hist))
                  + 5 * inject_Z (Z.of_nat (pass_events w hist))
                  - (if ec then 1 else 0) - (if ef then 1 else 0) /\
    (is_alive a = false ->
     bird af = bird a /\ net af = net a /\ ticks_alive i hist = 0%nat /\
     ec = false /\ ef = false).
Proof.
  induction fuel as [| fuel IH]; intros quits s sf i a Hfin Ha.
  - cbn in Hfin. injection Hfin as <-. exists a.
    unfold ticks_alive, pass_events, ever_collides, ever_falls_out.
    cbn [history filter length existsb Z.of_nat negb andb].
    change (inject_Z 0) with 0. rewrite !andb_true_r.
    repeat split; try assumption. lra.
  - cbn [loop history] in *.
    destruct (hd false quits); [discriminate |].
    destruct (alive_birds s) as [| a0 rest] eqn:Hlive.
    + cbn in Hfin. injection Hfin as <-. exists a.
      unfold ticks_alive, pass_events, ever_collides, ever_falls_out.
      cbn [filter length existsb Z.of_nat negb andb].
      change (inject_Z 0) with 0. rewrite !andb_true_r.
      repeat split; try assumption. lra.
    + destruct (tick w s) as [s' |] eqn:Ht; [| discriminate].
      destruct (tick_agent s s' i a Ht Ha) as (lead & _ & Ha1 & Hc & Hf).
      destruct (agent_after_balance s lead a)
        as (Hg1 & Hal1 & Hcf & Hfit1 & Hdead1).
      rewrite <- Hc, <- Hf in Hal1, Hcf, Hfit1, Hdead1.
      destruct (IH (tl quits) s' sf i _ Hfin Ha1)
        as (af & Haf & Hg & Hal & Hcf' & Hfit & Hdead).
      set (hist' := history w fuel (tl quits) s') in *.
      exists af. split; [exact Haf |]. split; [congruence |].
      unfold ever_collides, ever_falls_out in *. cbn [existsb].
      set (ec' := existsb (fun s0 => collides w s0 i) hist') in *.
      set (ef' := existsb (fun s0 => falls_out w s0 i) hist') in *.
      unfold ticks_alive, pass_events in *.
      rewrite !count_cons.
      assert (H0 : alive_at (agents s) i = is_alive a)
        by (unfold alive_at; rewrite Ha; reflexivity).
      rewrite H0.
      assert (Hlater : is_alive (agent_after w s lead a) = false ->
                       ec' = false /\ ef' = false)
        by (intro H; apply Hdead in H; tauto).
      split; [| split; [| split]].
      * rewrite Hal, Hal1.
        destruct (is_alive a), (collides w s i), (falls_out w s i), ec', ef';
          reflexivity.
      * rewrite Hal1 in Hlater.
        destruct (is_alive a), (collides w s i), (falls_out w s i), ec', ef';
          cbn in *; try reflexivity; try discriminate;
          destruct Hlater; try reflexivity; discriminate.
      * rewrite Hfit, Hfit1. rewrite Hal1 in Hlater.
        destruct (is_alive a), (collides w s i), (falls_out w s i),
          (pass_event w s), ec', ef';
          cbn in *; try lra; try discriminate;
          destruct Hlater; try reflexivity; discriminate.
      * intro Hd. destruct (Hdead1 Hd) as (Hb & Hn & _ & Hc0 & Hf0).
        assert (Hd1 : is_alive (agent_after w s lead a) = false)
          by (rewrite Hal1, Hd; reflexivity).
        destruct (Hdead Hd1) as (Hb' & Hn' & Hk & Hec & Hef).
        rewrite Hc0, Hf0, Hec, Hef. cbn [filter].
        rewrite H0, Hd. repeat split; congruence.
Qed.

(** *** The shape of the states of a run *)

Lemma agent_after_x s lead a :
  Bird.x (bird (agent_after w s lead a)) = Bird.x (bird a).
Proof.
  unfold agent_after.
  set (a2 := strike_all (pipes s) (decide w lead a)).
  assert (H2 : Bird.x (bird a2) = Bird.x (bird a))
    by (subst a2; rewrite strike_all_x; apply decide_x).
  set (a3 := if pass_event w s then reward a2 else a2).
  assert (H3 : Bird.x (bird a3) = Bird.x (bird a))
    by (subst a3; destruct (pass_event w s); exact H2).
  unfold render.
  destruct (bound_cases (Base.y (base s)) a3) as [H4 | [_ H4]]; rewrite H4;
    destruct (is_alive _); cbn [bird]; rewrite ?draw_x; exact H3.
Qed.

Lemma advance_passed rx p :
  Pipe.passed p = true -> advance rx p = Pipe.move p.
Proof. intro H. unfold advance, crossed. cbn. rewrite H. reflexivity. Qed.

(** When all obstacles but the last are passed, the loop over them only
    has the last one to mark. *)
Lemma obstacles_step rx olds p :
  forallb Pipe.passed olds = true ->
  Pipe.passed p = false ->
  let c := crossed rx (Pipe.move p) in
  existsb (fun q => crossed rx (Pipe.move q)) (olds ++ [p]) = c /\
  map (advance rx) (olds ++ [p])
  = map Pipe.move olds
    ++ [if c then Pipe.set_passed (Pipe.move p) else Pipe.move p] /\
  forallb Pipe.passed (map Pipe.move olds) = true.
Proof.
  intros Holds Hp c. rewrite existsb_app, map_app. cbn [existsb map].
  fold c. rewrite orb_false_r.
  induction olds as [| q olds IH].
  - repeat split.
  - cbn [forallb] in Holds. apply andb_prop in Holds as [Hq Holds].
    destruct (IH Holds) as (IH1 & IH2 & IH3).
    cbn [existsb map app forallb].
    rewrite advance_passed by exact Hq.
    unfold crossed at 1. cbn [Pipe.move Pipe.passed]. rewrite Hq.
    cbn [negb andb orb]. rewrite IH3.
    split; [exact IH1 |]. split; [| reflexivity].
    f_equal. exact IH2.
Qed.

Lemma forallb_filter {A : Type} (f g : A -> bool) (l : list A) :
  forallb f l = true -> forallb f (filter g l) = true.
Proof.
  induction l as [| x l IH]; [reflexivity |].
  cbn. intro H. apply andb_prop in H as [Hx Hl].
  destruct (g x); cbn; rewrite ?Hx; auto.
Qed.

Lemma count_passed_all (ps : list Pipe.t) :
  forallb Pipe.passed ps = true -> count_passed ps = length ps.
Proof.
  unfold count_passed. induction ps as [| q ps IH]; [reflexivity |].
  cbn. intro H. apply andb_prop in H as [Hq Hps].
  rewrite Hq. cbn. f_equal. exact (IH Hps).
Qed.

Lemma count_passed_app (ps qs : list Pipe.t) :
  count_passed (ps ++ qs) = (count_passed ps + count_passed qs)%nat.
Proof. unfold count_passed. rewrite filter_app, length_app. reflexivity. Qed.

Lemma ref_x_well_formed s :
  well_formed w s -> (0 <= ref_x (agents s))%Z.
Proof.
  intros [Hx _]. destruct (agents s) as [| a ags]; cbn; [lia |].
  inversion Hx as [| ? ? Ha _]; subst. rewrite Ha. lia.
Qed.

Lemma start_well_formed genomes gen g :
  well_formed w (start w genomes gen g).
Proof.
  unfold start. destruct (Pipe.init _ 700 g) as [p g'] eqn:Hp. split.
  - cbn [agents]. apply Forall_forall. intros a Ha.
    apply in_map_iff in Ha as (ig & <- & _). reflexivity.
  - exists [], p. cbn [pipes]. repeat split.
    change p with (fst (p, g')). rewrite <- Hp. reflexivity.
Qed.

Lemma tick_well_formed s s' :
  well_formed w s -> tick w s = Ok s' -> well_formed w s'.
Proof.
  intros Hwf Ht. pose proof (ref_x_well_formed s Hwf) as Hrx.
  destruct Hwf as [Hx (olds & p & Hps & Holds & Hp)].
  destruct (tick_spec s s' Ht) as (lead & _ & Hev & Hags & _ & Hps' & _).
  split.
  - rewrite Hags. apply Forall_forall. intros a Ha.
    apply in_map_iff in Ha as (a0 & <- & Ha0).
    rewrite agent_after_x. rewrite Forall_forall in Hx. apply Hx, Ha0.
  - rewrite Hps in Hev, Hps'.
    destruct (obstacles_step (ref_x (agents s)) olds p Holds Hp)
      as (He & Hm & Hall).
    rewrite He in Hev. rewrite Hm, filter_app in Hps'. rewrite Hev in Hps'.
    destruct (crossed (ref_x (agents s)) (Pipe.move p)) eqn:Hc.
    + eexists _, _. split; [exact Hps' |].
      split; [| reflexivity].
      rewrite forallb_app. rewrite forallb_filter by exact Hall.
      cbn. destruct (negb _); reflexivity.
    + assert (Hkeep : negb (off_screen w (Pipe.move p)) = true).
      { unfold crossed in Hc. cbn [Pipe.move Pipe.passed Pipe.x] in Hc.
        rewrite Hp in Hc. cbn [negb andb] in Hc.
        unfold off_screen. cbn [Pipe.move Pipe.x].
        apply Z.ltb_ge in Hc. apply negb_true_iff, Z.ltb_ge. lia. }
      cbn [filter] in Hps'. rewrite Hkeep, app_nil_r in Hps'.
      eexists _, _. split; [exact Hps' |].
      split; [apply forallb_filter, Hall | exact Hp].
Qed.

(** In such a state an iteration clears one obstacle when it has a pass
    event and none otherwise. *)
Lemma cleared_pass_event s :
  well_formed w s ->
  cleared w s = (if pass_event w s then 1 else 0)%nat.
Proof.
  intros [_ (olds & p & Hps & Holds & Hp)].
  unfold cleared, pass_event. rewrite after_pipes_spec.
  destruct (nth_error (pipes s) (pipe_ind w s)); [| reflexivity].
  rewrite Hps.
  destruct (obstacles_step (ref_x (agents s)) olds p Holds Hp)
    as (He & Hm & Hall).
  rewrite He, Hm, !count_passed_app.
  rewrite (count_passed_all olds), (count_passed_all (map Pipe.move olds))
    by assumption.
  rewrite length_map. unfold count_passed. cbn [filter]. rewrite Hp.
  destruct (crossed _ _); cbn [Pipe.move Pipe.set_passed Pipe.passed];
    rewrite ?Hp; cbn [length]; lia.
Qed.

Lemma obstacles_cleared_cons s hist :
  obstacles_cleared w (s :: hist)
  = (cleared w s + obstacles_cleared w hist)%nat.
Proof. reflexivity. Qed.

Lemma pass_events_cons s hist :
  pass_events w (s :: hist)
  = ((if pass_event w s then 1 else 0) + pass_events w hist)%nat.
Proof. unfold pass_events. cbn. destruct (pass_event w s); reflexivity. Qed.

Lemma history_cleared fuel : forall quits s,
  well_formed w s ->
  obstacles_cleared w (history w fuel quits s)
  = pass_events w (history w fuel quits s).
Proof.
  induction fuel as [| fuel IH]; intros quits s Hwf; [reflexivity |].
  cbn [history]. destruct (hd false quits); [reflexivity |].
  destruct (alive_birds s); [reflexivity |].
  destruct (tick w s) as [s' |] eqn:Ht;
    rewrite obstacles_cleared_cons, pass_events_cons,
      cleared_pass_event by exact Hwf.
  - rewrite (IH _ s') by (eapply tick_well_formed; eassumption).
    reflexivity.
  - reflexivity.
Qed.

Lemma run_length fuel : forall quits s sf,
  final_state (loop w fuel quits s) = Some sf ->
  length (agents sf) = length (agents s).
Proof.
  induction fuel as [| fuel IH]; intros quits s sf Hfin.
  - cbn in Hfin. injection Hfin as <-. reflexivity.
  - cbn [loop] in Hfin. destruct (hd false quits); [discriminate |].
    destruct (alive_birds s).
    + cbn in Hfin. injection Hfin as <-. reflexivity.
    + destruct (tick w s) as [s' |] eqn:Ht; [| discriminate].
      rewrite (IH _ _ _ Hfin).
      destruct (tick_spec s s' Ht) as (lead & _ & _ & Hags & _).
      rewrite Hags. apply length_map.
Qed.

Lemma loop_returned fuel : forall quits s sf,
  loop w fuel quits s = Returned sf -> alive_birds sf = [].
Proof.
  induction fuel as [| fuel IH]; intros quits s sf Hret; [discriminate |].
  cbn [loop] in Hret. destruct (hd false quits); [discriminate |].
  destruct (alive_birds s) eqn:Hlive.
  - injection Hret as <-. exact Hlive.
  - destruct (tick w s) as [s' |]; [| discriminate]. eapply IH, Hret.
Qed.

Lemma no_alive_birds s i a :
  alive_birds s = [] -> nth_error (agents s) i = Some a -> is_alive a = false.
Proof.
  intros Hnone Ha. destruct (is_alive a) eqn:Hal; [| reflexivity].
  assert (Hin : In a (alive_birds s))
    by (apply filter_In; split; [eapply nth_error_In, Ha | exact Hal]).
  rewrite Hnone in Hin. destruct Hin.
Qed.

(** Every bird starts a generation alive, with fitness 0 and the network
    of its genome. *)
Lemma start_agent genomes gen g i a :
  nth_error (agents (start w genomes gen g)) i = Some a ->
  fitness a = 0 /\ is_alive a = true /\ bird a = Bird.init 230 350 /\
  exists ig, nth_error genomes i = Some ig /\
             genome a = snd ig /\ net a = create_net w (snd ig).
Proof.
  unfold start. destruct (Pipe.init _ 700 g) as [p g']. cbn [agents].
  rewrite nth_error_map. destruct (nth_error genomes i) as [ig |];
    [| discriminate].
  cbn. intro H. injection H as <-. repeat split. exists ig. repeat split.
Qed.

(** C9: through the rest of a run, from any of its states, a bird that is
    alive at the end was alive before, and a bird that is dead stays dead:
    its physics and the state of its network are those it died with, it
    starts no iteration alive, neither collides nor falls out again, and
    its fitness only receives the 5 points of each pass event.  Over the
    run the fitness of a genome loses 1 exactly if its bird died in it, so
    at most once. *)
Theorem death_is_final fuel quits (s sf : State w) i (a : Agent w) :
  let hist := history w fuel quits s in
  final_state (loop w fuel quits s) = Some sf ->
  nth_error (agents s) i = Some a ->
  exists af,
    nth_error (agents sf) i = Some af /\
    (is_alive af = true -> is_alive a = true) /\
    (is_alive a = false ->
     is_alive af = false /\ bird af = bird a /\ net af = net a /\
     ticks_alive i hist = 0%nat /\
     ever_collides w i hist = false /\ ever_falls_out w i hist = false /\
     fitness af
     == fitness a + 5 * inject_Z (Z.of_nat (pass_events w hist))) /\
    fitness af
    == fitness a + 0.1 * inject_Z (Z.of_nat (ticks_alive i hist))
       + 5 * inject_Z (Z.of_nat (pass_events w hist))
       - (if is_alive a && negb (is_alive af) then 1 else 0).
Proof.
  intros hist Hfin Ha.
  destruct (run_balance fuel quits s sf i a Hfin Ha)
    as (af & Haf & _ & Hal & Hcf & Hfit & Hdead).
  subst hist. cbv zeta in Hal, Hcf, Hfit, Hdead.
  exists af. split; [exact Haf |]. split; [| split].
  - intro H. rewrite H in Hal. destruct (is_alive a); [reflexivity |].
    discriminate.
  - intro Hd. destruct (Hdead Hd) as (Hb & Hn & Hk & Hec & Hef).
    rewrite Hd in Hal. cbn [andb] in Hal.
    rewrite Hk, Hec, Hef in Hfit. change (inject_Z (Z.of_nat 0)) with 0 in Hfit.
    repeat split; try assumption. rewrite Hfit. lra.
  - rewrite Hfit, Hal.
    destruct (is_alive a), (ever_collides w i _), (ever_falls_out w i _);
      cbn in *; try lra; discriminate.
Qed.

(** The 5 points of a pass event go to every genome of the cohort, those
    of dead birds included. *)
Lemma pass_bonus_reaches_the_dead s s' i a :
  tick w s = Ok s' ->
  pass_event w s = true ->
  nth_error (agents s) i = Some a ->
  is_alive a = false ->
  exists a', nth_error (agents s') i = Some a' /\
             is_alive a' = false /\ fitness a' = fitness a + 5.
Proof.
  intros Ht Hev Ha Hd.
  destruct (tick_agent s s' i a Ht Ha) as (lead & _ & Ha' & _).
  destruct (agent_after_balance s lead a) as (_ & Hal & _ & _ & Hdead).
  destruct (Hdead Hd) as (_ & _ & Hf & _).
  rewrite Hev in Hf. rewrite Hd in Hal.
  eexists. split; [exact Ha' |]. split; [exact Hal | exact Hf].
Qed.

(** *** The lead obstacle *)

Lemma pipe_ind_bound s :
  pipes s <> [] ->
  (pipe_ind w s < length (pipes s))%nat /\
  (pipe_ind w s = 1%nat -> (2 <= length (pipes s))%nat).
Proof.
  intro Hne. unfold pipe_ind.
  destruct (alive_birds s) as [| a0 ?]; destruct (pipes s) as [| p0 [| p1 ?]];
    try congruence; cbn [length]; try (split; [lia | discriminate]).
  destruct (_ <? _)%Z; split; lia.
Qed.

Lemma tick_defined s : pipes s <> [] -> exists s', tick w s = Ok s'.
Proof.
  intro Hne. destruct (pipe_ind_bound s Hne) as [Hlt _].
  apply nth_error_Some in Hlt.
  unfold tick. rewrite after_pipes_spec.
  destruct (nth_error (pipes s) (pipe_ind w s)) as [lead |]; [| congruence].
  destruct (existsb _ (pipes s)).
  - destruct (Pipe.init _ _ _). eexists. reflexivity.
  - eexists. reflexivity.
Qed.

Lemma tick_raises s : tick w s = IndexError -> pipes s = [].
Proof.
  intro H. destruct (pipes s) as [| p ps] eqn:Hps; [reflexivity |].
  destruct (tick_defined s) as [s' Hs']; congruence.
Qed.

Lemma well_formed_pipes s : well_formed w s -> pipes s <> [].
Proof.
  intros [_ (olds & p & Hps & _)] Hnil. rewrite Hps in Hnil.
  destruct olds; discriminate.
Qed.

Lemma history_well_formed fuel : forall quits s,
  well_formed w s ->
  Forall (well_formed w) (history w fuel quits s) /\
  loop w fuel quits s <> Raised /\
  (forall sf, final_state (loop w fuel quits s) = Some sf -> well_formed w sf).
Proof.
  induction fuel as [| fuel IH]; intros quits s Hwf.
  - cbn. split; [constructor |]. split; [discriminate |].
    intros sf H. injection H as <-. exact Hwf.
  - cbn [history loop]. destruct (hd false quits).
    + split; [constructor |]. split; discriminate.
    + destruct (alive_birds s).
      * split; [constructor |]. split; [discriminate |].
        intros sf H. injection H as <-. exact Hwf.
      * destruct (tick_defined s (well_formed_pipes s Hwf)) as [s' Ht].
        rewrite Ht.
        destruct (IH (tl quits) s' (tick_well_formed s s' Hwf Ht))
          as (Hh & Hr & Hf).
        split; [constructor; assumption |]. split; assumption.
Qed.

(** An obstacle that is neither passed nor being passed is still on
    screen after its move. *)
Lemma unpassed_on_screen rx p :
  (0 <= rx)%Z ->
  Pipe.passed p = false ->
  crossed rx (Pipe.move p) = false ->
  off_screen w (Pipe.move p) = false.
Proof.
  intros Hrx Hp Hc. unfold crossed in Hc.
  cbn [Pipe.move Pipe.passed Pipe.x] in Hc. rewrite Hp in Hc.
  cbn [negb andb] in Hc. apply Z.ltb_ge in Hc.
  unfold off_screen. cbn [Pipe.move Pipe.x]. apply Z.ltb_ge. lia.
Qed.

(** C10: in a generation the loop never raises; the list of obstacles is
    not empty where the loop ends, nor in any state [s] in which an
    iteration starts.  There every obstacle but the last has been passed
    and the last has not, the index of the lead obstacle is below the
    length of the list, it is 1 only when there are two obstacles at
    least, and the lookup succeeds.  The iteration removes no obstacle but
    those it finds off screen after their move, all of which have their
    passed flag set, and it leaves a list that again ends with an obstacle
    not yet passed. *)
Theorem lead_obstacle_in_bounds fuel quits genomes gen g :
  let s0 := start w genomes gen g in
  eval_genomes w fuel quits genomes gen g <> Raised /\
  (forall sf, final_state (eval_genomes w fuel quits genomes gen g) = Some sf ->
              pipes sf <> []) /\
  (forall s, In s (history w fuel quits s0) ->
     pipes s <> [] /\ well_formed w s /\
     (pipe_ind w s < length (pipes s))%nat /\
     (pipe_ind w s = 1%nat -> (2 <= length (pipes s))%nat) /\
     (exists lead, nth_error (pipes s) (pipe_ind w s) = Some lead) /\
     exists s',
       tick w s = Ok s' /\ well_formed w s' /\ pipes s' <> [] /\
       let moved := map (advance (ref_x (agents s))) (pipes s) in
       (forall p, In p moved -> off_screen w p = true ->
                  Pipe.passed p = true) /\
       (forall p, In p moved -> off_screen w p = false -> In p (pipes s'))).
Proof.
  intro s0.
  destruct (history_well_formed fuel quits s0
              (start_well_formed genomes gen g)) as (Hh & Hr & Hf).
  split; [exact Hr |].
  split; [intros sf H; apply well_formed_pipes, Hf, H |].
  intros s Hin. rewrite Forall_forall in Hh. pose proof (Hh s Hin) as Hwf.
  pose proof (well_formed_pipes s Hwf) as Hne.
  destruct (pipe_ind_bound s Hne) as [Hlt H1].
  split; [exact Hne |]. split; [exact Hwf |].
  split; [exact Hlt |]. split; [exact H1 |].
  split.
  { destruct (nth_error (pipes s) (pipe_ind w s)) as [lead |] eqn:Hl.
    - exists lead. reflexivity.
    - apply nth_error_None in Hl. lia. }
  destruct (tick_defined s Hne) as [s' Ht]. exists s'.
  pose proof (tick_well_formed s s' Hwf Ht) as Hwf'.
  split; [exact Ht |]. split; [exact Hwf' |].
  split; [apply well_formed_pipes, Hwf' |].
  pose proof (ref_x_well_formed s Hwf) as Hrx.
  destruct Hwf as [_ (olds & p0 & Hps & Holds & Hp0)].
  destruct (obstacles_step (ref_x (agents s)) olds p0 Holds Hp0)
    as (_ & Hm & Hall).
  destruct (tick_spec s s' Ht) as (_ & _ & _ & _ & _ & Hps' & _).
  cbv zeta. split.
  - intros p Hp Hoff. rewrite Hps, Hm in Hp.
    apply in_app_or in Hp as [Hp | [Hp | []]].
    + rewrite forallb_forall in Hall. apply Hall, Hp.
    + subst p.
      destruct (crossed (ref_x (agents s)) (Pipe.move p0)) eqn:Hc;
        [reflexivity |].
      rewrite (unpassed_on_screen _ _ Hrx Hp0 Hc) in Hoff. discriminate.
  - intros p Hp Hon. rewrite Hps'. apply in_or_app. left.
    apply filter_In. split; [exact Hp | rewrite Hon; reflexivity].
Qed.

(** *** The score *)

Lemma pass_event_overtaken s :
  pipes s <> [] ->
  pass_event w s = existsb (Pipe.overtaken (ref_x (agents s))) (pipes s).
Proof.
  intro Hne. destruct (tick_defined s Hne) as [s' Ht].
  destruct (tick_spec s s' Ht) as (_ & _ & Hev & _). exact Hev.
Qed.

Lemma run_score fuel : forall quits s sf,
  final_state (loop w fuel quits s) = Some sf ->
  score sf = (score s + Z.of_nat (pass_events w (history w fuel quits s)))%Z.
Proof.
  induction fuel as [| fuel IH]; intros quits s sf Hfin.
  - cbn in Hfin. injection Hfin as <-. cbn. lia.
  - cbn [loop history] in *. destruct (hd false quits); [discriminate |].
    destruct (alive_birds s).
    + cbn in Hfin. injection Hfin as <-. cbn. lia.
    + destruct (tick w s) as [s' |] eqn:Ht; [| discriminate].
      rewrite (IH _ _ _ Hfin), pass_events_cons.
      destruct (tick_spec s s' Ht) as (_ & _ & _ & _ & Hsc & _).
      rewrite Hsc. destruct (pass_event w s); lia.
Qed.

Lemma poll_x events : forall b r,
  Bird.x (fst (Manual.poll events b r)) = Bird.x b.
Proof.
  induction events as [| e events IH]; intros b r; [reflexivity |].
  destruct e as [| k |]; cbn [Manual.poll]; [reflexivity | | apply IH].
  destruct k; cbn [fst]; rewrite ?IH; reflexivity.
Qed.

Lemma manual_pipe_loop_spec ps : forall b r add,
  Bird.x (fst (fst (fst (Manual.pipe_loop w ps b r add)))) = Bird.x b /\
  snd (Manual.pipe_loop w ps b r add)
  = add || existsb (Pipe.overtaken (Bird.x b)) ps.
Proof.
  induction ps as [| p ps IH]; intros b r add.
  - cbn. rewrite orb_false_r. split; reflexivity.
  - cbn [Manual.pipe_loop existsb].
    set (hit := Pipe.collide (overlap w) (Pipe.move p) b).
    set (b1 := if hit then Bird.draw b else b).
    assert (Hx : Bird.x b1 = Bird.x b)
      by (subst b1; destruct hit; [apply draw_x | reflexivity]).
    set (c := negb (Pipe.passed (Pipe.move p))
              && (Pipe.x (Pipe.move p) <? Bird.x b1)%Z).
    assert (Hc : c = Pipe.overtaken (Bird.x b) p)
      by (subst c; rewrite Hx; reflexivity).
    specialize (IH b1 (if hit then false else r) (add || c)).
    destruct (Manual.pipe_loop w ps b1 _ _) as [[[b2 ps2] r2] add'].
    cbn [fst snd] in *. destruct IH as [IHx IHa].
    split; [congruence |]. rewrite IHa, Hx, Hc, orb_assoc. reflexivity.
Qed.

Lemma iteration_score events (m : Manual.State) :
  Manual.score (Manual.iteration w events m)
  = (Manual.score m
     + (if existsb (Pipe.overtaken (Bird.x (Manual.bird m)))
                   (Manual.pipes m)
        then 1 else 0))%Z.
Proof.
  unfold Manual.iteration.
  pose proof (poll_x events (Manual.bird m) (Manual.run m)) as Hx.
  destruct (Manual.poll events _ _) as [b0 r0]. cbn [fst] in Hx.
  pose proof (manual_pipe_loop_spec (Manual.pipes m) (Bird.move b0) r0 false)
    as [_ Hadd].
  destruct (Manual.pipe_loop w _ _ _ _) as [[[b2 ps2] r2] add'].
  cbn [snd orb] in Hadd. change (Bird.x (Bird.move b0)) with (Bird.x b0) in Hadd.
  rewrite Hx in Hadd. rewrite <- Hadd.
  destruct add'.
  - destruct (Pipe.init _ _ _). cbn. reflexivity.
  - cbn. lia.
Qed.

Lemma session_score inputs : forall m : Manual.State,
  (Manual.score m <= Manual.score (Manual.session w inputs m))%Z.
Proof.
  induction inputs as [| events inputs IH]; intro m; cbn [Manual.session].
  - lia.
  - destruct (Manual.run m); [| lia].
    specialize (IH (Manual.iteration w events m)).
    rewrite iteration_score in IH.
    destruct (existsb _ _) in IH; lia.
Qed.

(** C6: an iteration of the evaluation loop, which raises only when there
    is no obstacle at all, and an iteration of the manual session add
    exactly 1 to the score when the move of this tick brings some obstacle
    not yet passed strictly to the left of the reference bird, be it one
    obstacle or several, and leave the score alone otherwise.  Over a run
    of either loop the score never goes down; in the evaluation loop it
    grows by the number of iterations with a pass event. *)
Theorem score_counts_pass_ticks :
  (forall s : State w,
     match tick w s with
     | Ok s' =>
         score s'
         = (score s
            + (if existsb (Pipe.overtaken (ref_x (agents s))) (pipes s)
               then 1 else 0))%Z
     | IndexError => pipes s = []
     end) /\
  (forall fuel quits (s sf : State w),
     final_state (loop w fuel quits s) = Some sf ->
     (score s <= score sf)%Z /\
     score sf
     = (score s + Z.of_nat (pass_events w (history w fuel quits s)))%Z) /\
  (forall events (m : Manual.State),
     Manual.score (Manual.iteration w events m)
     = (Manual.score m
        + (if existsb (Pipe.overtaken (Bird.x (Manual.bird m)))
                      (Manual.pipes m)
           then 1 else 0))%Z) /\
  (forall inputs (m : Manual.State),
     (Manual.score m <= Manual.score (Manual.session w inputs m))%Z).
Proof.
  split; [| split; [| split]].
  - intro s. destruct (tick w s) as [s' |] eqn:Ht.
    + destruct (tick_spec s s' Ht) as (_ & _ & Hev & _ & Hsc & _).
      change (pass_event w s
              = existsb (Pipe.overtaken (ref_x (agents s))) (pipes s)) in Hev.
      rewrite Hsc, Hev. destruct (existsb _ _); lia.
    + apply tick_raises, Ht.
  - intros fuel quits s sf Hfin. rewrite (run_score fuel quits s sf Hfin).
    split; lia.
  - apply iteration_score.
  - apply session_score.
Qed.

(** C7: called with no genome, and so with no living bird, the evaluation
    loop leaves by its [break] in the first iteration, or by [sys.exit()]
    when the window is being closed: it starts no iteration body and
    raises nothing.  The same holds from any state in which no bird is
    alive, and the state, fitness values included, is returned as it
    was. *)
Theorem empty_generation_returns fuel quits gen g :
  let s0 := start w [] gen g in
  eval_genomes w (S fuel) quits [] gen g
  = (if hd false quits then Exited else Returned s0) /\
  agents s0 = [] /\
  history w (S fuel) quits s0 = [] /\
  (forall s : State w,
     alive_birds s = [] ->
     loop w (S fuel) quits s
     = (if hd false quits then Exited else Returned s) /\
     history w (S fuel) quits s = []).
Proof.
  intro s0.
  assert (Hgen : forall s : State w,
             alive_birds s = [] ->
             loop w (S fuel) quits s
             = (if hd false quits then Exited else Returned s) /\
             history w (S fuel) quits s = []).
  { intros s Hs. cbn [loop history]. rewrite Hs.
    destruct (hd false quits); split; reflexivity. }
  assert (H0 : agents s0 = []).
  { subst s0. unfold start. destruct (Pipe.init _ 700 g). reflexivity. }
  assert (Hlive : alive_birds s0 = [])
    by (unfold alive_birds; rewrite H0; reflexivity).
  destruct (Hgen s0 Hlive) as [Hl Hh].
  split; [exact Hl |]. split; [exact H0 |]. split; [exact Hh | exact Hgen].
Qed.

End EvaluationFacts.

(** ** The fitness of a genome *)

Section FitnessFacts.

Import Neat.

Context (w : World).

Implicit Types (a : Agent w) (s : State w).

Lemma strike_all_cons p ps a :
  strike_all (p :: ps) a = strike_all ps (strike w (Pipe.move p) a).
Proof. reflexivity. Qed.

Lemma decide_is_alive lead a : is_alive (decide w lead a) = is_alive a.
Proof.
  destruct (is_alive a) eqn:H.
  - apply (decide_alive w), H.
  - rewrite (decide_dead w) by exact H. exact H.
Qed.

(** The collision loop charges a genome once, when its bird dies in it. *)
Lemma strike_fee_fold (A : Arith) ps : forall a (f : num A),
  fold_left (fun af p => strike_fee w A (Pipe.move p) af) ps (a, f)
  = (strike_all ps a,
     if is_alive a && negb (is_alive (strike_all ps a))
     then minus A f (penalty A) else f).
Proof.
  induction ps as [| p ps IH]; intros a f.
  - cbn. rewrite andb_negb_r. reflexivity.
  - cbn [fold_left]. rewrite strike_all_cons. unfold strike_fee at 2.
    rewrite IH. f_equal. unfold strike.
    destruct (is_alive a) eqn:Hal; cbn [andb].
    + destruct (Pipe.collide _ _ _).
      * rewrite (strike_all_dead w) by reflexivity. reflexivity.
      * rewrite Hal. reflexivity.
    + rewrite (strike_all_dead w) by exact Hal. rewrite Hal. reflexivity.
Qed.

(** The fitness after an iteration, by what happened to the bird in it. *)
Lemma account_cases (A : Arith) s lead a (f : num A) :
  let a2 := strike_all (pipes s) (decide w lead a) in
  let c := is_alive a && negb (is_alive a2) in
  let o := is_alive a2 && negb (is_alive (agent_after w s lead a)) in
  account w A s lead a f
  = (let f1 := if is_alive a then plus A f (gain A) else f in
     let f2 := if c then minus A f1 (penalty A) else f1 in
     let f3 := if pass_event w s then plus A f2 (bonus A) else f2 in
     if o then minus A f3 (penalty A) else f3).
Proof.
  intros a2 c o. unfold account. rewrite strike_fee_fold.
  fold a2. rewrite decide_is_alive. fold c. cbv zeta.
  assert (Ho : is_alive a2 && out_of_bounds w (Base.y (base s)) (bird a2) = o).
  { subst o. unfold agent_after. fold a2.
    destruct (render_facts w (bound w (Base.y (base s))
                (if pass_event w s then reward a2 else a2))) as (-> & _).
    unfold bound.
    assert (H3 : forall a3 : Agent w,
               a3 = (if pass_event w s then reward a2 else a2) ->
               is_alive a3 = is_alive a2 /\ bird a3 = bird a2).
    { intros a3 ->. destruct (pass_event w s); split; reflexivity. }
    destruct (H3 _ eq_refl) as [Hal Hb]. rewrite Hal, Hb.
    destruct (is_alive a2) eqn:Hal2; cbn [andb]; [| reflexivity].
    destruct (out_of_bounds _ _ _); [reflexivity |].
    rewrite Hal. reflexivity. }
  rewrite Ho. reflexivity.
Qed.

(** In exact arithmetic the account of an iteration is the fitness the
    bird's record holds after it. *)
Lemma account_exact s lead a :
  account w exact s lead a (fitness a) = fitness (agent_after w s lead a).
Proof.
  unfold account. rewrite strike_fee_fold. unfold agent_after.
  set (a1 := decide w lead a).
  assert (H1 : (if is_alive a then plus exact (fitness a) (gain exact)
                else fitness a) = fitness a1).
  { subst a1. destruct (is_alive a) eqn:Hal.
    - destruct (decide_alive w lead a Hal) as (_ & -> & _). reflexivity.
    - rewrite (decide_dead w) by exact Hal. reflexivity. }
  rewrite H1. set (a2 := strike_all (pipes s) a1).
  assert (H2 : (if is_alive a1 && negb (is_alive a2)
                then minus exact (fitness a1) (penalty exact)
                else fitness a1) = fitness a2).
  { subst a2. destruct (strike_all_cases w (pipes s) a1) as [H | [Hal H]];
      rewrite H.
    - rewrite andb_negb_r. reflexivity.
    - rewrite Hal. reflexivity. }
  rewrite H2.
  destruct (render_facts w (bound w (Base.y (base s))
              (if pass_event w s then reward a2 else a2))) as (_ & -> & _).
  unfold bound.
  destruct (pass_event w s);
    [change (is_alive (reward a2)) with (is_alive a2);
     change (bird (reward a2)) with (bird a2) |];
    destruct (is_alive a2 && out_of_bounds w (Base.y (base s)) (bird a2));
    reflexivity.
Qed.

(** So the fitness a run ends with is its account in exact arithmetic. *)
Lemma run_account fuel : forall quits s sf i a,
  final_state (loop w fuel quits s) = Some sf ->
  nth_error (agents s) i = Some a ->
  exists af,
    nth_error (agents sf) i = Some af /\
    fitness af
    = fold_left (account_at w exact i) (history w fuel quits s) (fitness a).
Proof.
  induction fuel as [| fuel IH]; intros quits s sf i a Hfin Ha.
  - cbn in Hfin. injection Hfin as <-. exists a. split; [exact Ha | reflexivity].
  - cbn [loop history] in *. destruct (hd false quits); [discriminate |].
    destruct (alive_birds s).
    + cbn in Hfin. injection Hfin as <-. exists a.
      split; [exact Ha | reflexivity].
    + destruct (tick w s) as [s' |] eqn:Ht; [| discriminate].
      destruct (tick_agent w s s' i a Ht Ha) as (lead & Hl & Ha1 & _).
      destruct (IH (tl quits) s' sf i _ Hfin Ha1) as (af & Haf & Hfit).
      exists af. split; [exact Haf |]. rewrite Hfit. cbn [fold_left].
      f_equal. unfold account_at. rewrite Ha, Hl. symmetry.
      apply account_exact.
Qed.

Lemma lived_cons i s hist :
  lived w i (s :: hist)
  = if alive_at (agents s) i then s :: lived w i hist else lived w i hist.
Proof. reflexivity. Qed.

(** The account of a run for a bird that never collides, when no obstacle
    is passed after its death: the iterations it starts alive earn, and
    the penalty of its fall comes last. *)
Lemma run_earnings (A : Arith) fuel : forall quits s sf i a (f : num A),
  final_state (loop w fuel quits s) = Some sf ->
  nth_error (agents s) i = Some a ->
  let hist := history w fuel quits s in
  ever_collides w i hist = false ->
  bonus_after_death w i hist = false ->
  fold_left (account_at w A i) hist f
  = (let e := fold_left (earn w A) (lived w i hist) f in
     if ever_falls_out w i hist then minus A e (penalty A) else e).
Proof.
  induction fuel as [| fuel IH]; intros quits s sf i a f Hfin Ha;
    [intros; reflexivity |].
  pose proof (run_balance w (S fuel) quits s sf i a Hfin Ha) as Hbal.
  cbn [loop history] in *. destruct (hd false quits); [discriminate |].
  destruct (alive_birds s); [intros; reflexivity |].
  destruct (tick w s) as [s' |] eqn:Ht; [| discriminate].
  clear Hbal.
  destruct (tick_agent w s s' i a Ht Ha) as (lead & Hl & Ha1 & Hc & Hf).
  pose proof (run_balance w fuel (tl quits) s' sf i _ Hfin Ha1) as Hbal.
  cbv zeta in Hbal. destruct Hbal as (af & _ & _ & _ & _ & _ & Hdead).
  specialize (IH (tl quits) s' sf i _ (account_at w A i f s) Hfin Ha1).
  cbv zeta in IH |- *. intros Hnc Hnb.
  unfold ever_collides, ever_falls_out, bonus_after_death in *.
  cbn [existsb] in Hnc, Hnb |- *.
  apply orb_false_iff in Hnc as [Hc0 Hnc], Hnb as [Hb0 Hnb].
  specialize (IH Hnc Hnb).
  assert (H0 : alive_at (agents s) i = is_alive a)
    by (unfold alive_at; rewrite Ha; reflexivity).
  cbn [fold_left]. rewrite lived_cons, H0. rewrite H0 in Hb0.
  assert (Hacc : account_at w A i f s = account w A s lead a f)
    by (unfold account_at; rewrite Ha, Hl; reflexivity).
  rewrite Hacc in IH |- *. rewrite account_cases in IH |- *.
  rewrite <- Hc, <- Hf in IH |- *. rewrite Hc0 in IH |- *.
  cbv zeta in IH |- *.
  destruct (agent_after_balance w s lead a) as (_ & Hal1 & _ & _ & Hd1).
  rewrite <- Hc, <- Hf in Hal1, Hd1. rewrite Hc0 in Hal1.
  destruct (is_alive a) eqn:Hal; cbn [negb andb] in *.
  - destruct (falls_out w s i) eqn:Hfo; cbn [orb negb] in *.
    + destruct (Hdead Hal1) as (_ & _ & Hk & _ & Hef).
      unfold ticks_alive in Hk. apply length_zero_iff_nil in Hk.
      fold (lived w i (history w fuel (tl quits) s')) in Hk.
      rewrite Hk in IH |- *. rewrite Hef in IH. cbn [fold_left] in IH |- *.
      rewrite IH. unfold earn. reflexivity.
    + rewrite IH. cbn [fold_left]. unfold earn. reflexivity.
  - destruct (Hd1 eq_refl) as (_ & _ & _ & _ & Hfo). rewrite Hfo in *.
    rewrite Hb0 in IH |- *. cbn [orb]. exact IH.
Qed.

Lemma cleared_count (l : list (State w)) :
  Forall (well_formed w) l ->
  list_sum (map (cleared w) l) = length (filter (pass_event w) l).
Proof.
  induction 1 as [| s l Hs _ IH]; [reflexivity |].
  change (list_sum (map (cleared w) (s :: l)))
    with (cleared w s + list_sum (map (cleared w) l))%nat.
  rewrite (cleared_pass_event w s Hs), IH. cbn [filter].
  destruct (pass_event w s); reflexivity.
Qed.

Lemma cleared_while_alive_count i (hist : list (State w)) :
  Forall (well_formed w) hist ->
  cleared_while_alive w i hist
  = length (filter (pass_event w) (lived w i hist)).
Proof.
  intro Hwf. apply cleared_count, Forall_forall. intros s Hs.
  apply filter_In in Hs as [Hs _]. rewrite Forall_forall in Hwf.
  apply Hwf, Hs.
Qed.

Lemma no_bonus_after_death i (hist : list (State w)) :
  bonus_after_death w i hist = false ->
  pass_events w hist = length (filter (pass_event w) (lived w i hist)).
Proof.
  unfold bonus_after_death, pass_events. induction hist as [| s hist IH];
    [reflexivity |].
  cbn [existsb]. intro H. apply orb_false_iff in H as [Hs H].
  rewrite lived_cons. cbn [filter].
  destruct (alive_at (agents s) i); cbn [negb andb] in Hs.
  - cbn [filter]. destruct (pass_event w s); cbn [length]; rewrite (IH H);
      reflexivity.
  - rewrite Hs. apply IH, H.
Qed.

(** C1, as the code has it.  Take a genome whose bird never collides,
    starts [k] iterations alive and is alive while [p] obstacles are
    cleared, none being passed after its death.  In whatever arithmetic the
    updates are carried out, binary64 as in the program or exact, its
    fitness at the end of the generation is what is obtained from 0 by the
    updates of the [k] iterations its bird started alive, in their order,
    0.1 in each and then 5 in those with a pass event, of which there are
    [p], and last by taking 1 off if the bird hit the ground or left
    through the top.  Carried out exactly, which is what the [fitness] of
    the agent holds, this is 0.1 * k + 5 * p, minus 1 if the bird fell
    out.  Such a bird is dead exactly if it fell out, and it has when the
    loop returns. *)
Theorem fitness_without_collision (A : Arith)
        fuel quits genomes gen g (sf : State w) i (a : Agent w) :
  let hist := history w fuel quits (start w genomes gen g) in
  let k := ticks_alive i hist in
  let p := cleared_while_alive w i hist in
  let fell := ever_falls_out w i hist in
  final_state (eval_genomes w fuel quits genomes gen g) = Some sf ->
  nth_error (agents sf) i = Some a ->
  ever_collides w i hist = false ->
  bonus_after_death w i hist = false ->
  fitness_after w A i hist
  = (let e := fold_left (earn w A) (lived w i hist) (initial A) in
     if fell then minus A e (penalty A) else e) /\
  length (lived w i hist) = k /\
  length (filter (pass_event w) (lived w i hist)) = p /\
  fitness a = fitness_after w exact i hist /\
  fitness a == 0.1 * inject_Z (Z.of_nat k) + 5 * inject_Z (Z.of_nat p)
               - (if fell then 1 else 0) /\
  is_alive a = negb fell /\
  (eval_genomes w fuel quits genomes gen g = Returned sf -> fell = true).
Proof.
  intros hist k p fell Hfin Ha Hnc Hnb. unfold eval_genomes in Hfin.
  assert (Hlt : (i < length (agents (start w genomes gen g)))%nat).
  { rewrite <- (run_length w fuel quits _ sf Hfin).
    apply nth_error_Some. congruence. }
  destruct (nth_error (agents (start w genomes gen g)) i) as [a0 |] eqn:Ha0;
    [| apply nth_error_None in Ha0; lia].
  destruct (start_agent w genomes gen g i a0 Ha0) as (Hf0 & Hal0 & _).
  destruct (history_well_formed w fuel quits _
              (start_well_formed w genomes gen g)) as (Hwf & _).
  fold hist in Hwf.
  pose proof (cleared_while_alive_count i hist Hwf) as Hp. fold p in Hp.
  destruct (run_balance w fuel quits _ sf i a0 Hfin Ha0)
    as (af & Haf & _ & Hal & _ & Hfit & _).
  fold hist in Hal, Hfit. cbv zeta in Hal, Hfit.
  rewrite Haf in Ha. injection Ha as ->.
  rewrite Hnc in Hal, Hfit. fold fell in Hal, Hfit.
  rewrite Hal0 in Hal. rewrite Hf0 in Hfit. cbn [negb andb] in Hal.
  fold k in Hfit.
  rewrite (no_bonus_after_death i hist Hnb), <- Hp in Hfit.
  split; [| split; [| split; [| split; [| split; [| split]]]]].
  - apply (run_earnings A fuel quits _ sf i a0 (initial A) Hfin Ha0 Hnc Hnb).
  - reflexivity.
  - symmetry. exact Hp.
  - destruct (run_account fuel quits _ sf i a0 Hfin Ha0) as (af & Haf' & Hacc).
    rewrite Haf in Haf'. injection Haf' as <-.
    rewrite Hacc, Hf0. reflexivity.
  - rewrite Hfit. lra.
  - exact Hal.
  - intro Hret. unfold eval_genomes in Hret. apply (loop_returned w) in Hret.
    rewrite (no_alive_birds w sf i a Hret Haf) in Hal.
    destruct fell; [reflexivity | discriminate].
Qed.

End FitnessFacts.

(** ** The properties on the sample worlds *)

Section Samples.

Import Neat.

(** C1 as stated fails on two runs of 95 iterations.  Alone, the bird
    that steers through the gap never collides nor falls out; it is alive
    through the 95 iterations, in the last of which the first obstacle is
    cleared, and the fitness the program holds is 14.499999999999982, where
    0.1 * 95 + 5 * 1 is 14.5.  In [pair] the first bird never jumps: it
    starts 23 iterations alive, clears no obstacle and hits the ground
    without a collision, and the obstacle the other bird clears in the 95th
    iteration leaves its genome with 6.3000000000000007, where
    0.1 * 23 + 5 * 0 - 1 is 1.3000000000000003. *)
Lemma fitness_formula_counterexample :
  let run := history box_world 95 [] (start box_world ace 0 sample_rng) in
  let run' := history box_world 95 [] (start box_world pair 0 sample_rng) in
  (ever_collides box_world 0 run = false /\
   ever_falls_out box_world 0 run = false /\
   ticks_alive 0 run = 95%nat /\
   cleared_while_alive box_world 0 run = 1%nat /\
   obstacles_cleared box_world run = 1%nat /\
   fitness_after box_world binary64 0 run = 14.499999999999982%float /\
   (0.1 * 95 + 5 * 1)%float = 14.5%float /\
   fitness_after box_world binary64 0 run <> (0.1 * 95 + 5 * 1)%float) /\
  (ever_collides box_world 0 run' = false /\
   ever_falls_out box_world 0 run' = true /\
   ticks_alive 0 run' = 23%nat /\
   cleared_while_alive box_world 0 run' = 0%nat /\
   bonus_after_death box_world 0 run' = true /\
   fitness_after box_world binary64 0 run' = 6.3000000000000007%float /\
   (0.1 * 23 + 5 * 0 - 1)%float = 1.3000000000000003%float /\
   fitness_after box_world binary64 0 run' <> (0.1 * 23 + 5 * 0 - 1)%float).
Proof.
  cbv zeta. split.
  - repeat (split; [vm_compute; reflexivity |]).
    intro H. apply (f_equal (fun f => PrimFloat.eqb f 14.5%float)) in H.
    vm_compute in H. discriminate.
  - repeat (split; [vm_compute; reflexivity |]).
    intro H.
    apply (f_equal (fun f => PrimFloat.eqb f 6.3000000000000007%float)) in H.
    vm_compute in H. discriminate.
Qed.

(** C1 on two runs.  Alone, the bird that steers through the gap is alive
    through 95 iterations and an obstacle is cleared in the last: the
    program holds 14.499999999999982, and 0.1 * 95 + 5 * 1 in exact
    arithmetic.  Alone, the bird that never jumps hits the ground in its
    23rd iteration and the loop returns: the program holds
    1.3000000000000007, and 0.1 * 23 - 1 in exact arithmetic. *)
Lemma fitness_without_collision_witness :
  fitness_after box_world binary64 0
    (history box_world 95 [] (start box_world ace 0 sample_rng))
  = 14.499999999999982%float /\
  fitness (nth 0 (agents (state_after 95 ace)) idle) == 0.1 * 95 + 5 * 1 /\
  fitness_after box_world binary64 0
    (history box_world 30 [] (start box_world solo 0 sample_rng))
  = 1.3000000000000007%float /\
  fitness (nth 0 (agents (state_after 30 solo)) idle) == 0.1 * 23 + 5 * 0 - 1 /\
  ever_falls_out box_world 0
    (history box_world 30 [] (start box_world solo 0 sample_rng)) = true.
Proof.
  destruct (fitness_without_collision box_world binary64 95 [] ace 0
              sample_rng (state_after 95 ace) 0%nat
              (nth 0 (agents (state_after 95 ace)) idle))
    as (Hacc & _ & _ & _ & Hfit & _);
    [vm_compute; reflexivity .. |].
  destruct (fitness_without_collision box_world binary64 30 [] solo 0
              sample_rng (state_after 30 solo) 0%nat
              (nth 0 (agents (state_after 30 solo)) idle))
    as (Hacc' & _ & _ & _ & Hfit' & _ & Hret);
    [vm_compute; reflexivity .. |].
  split; [apply (eq_trans Hacc); vm_compute; reflexivity |].
  split; [apply (Qeq_trans _ _ _ Hfit); vm_compute; reflexivity |].
  split; [apply (eq_trans Hacc'); vm_compute; reflexivity |].
  split; [apply (Qeq_trans _ _ _ Hfit'); vm_compute; reflexivity |].
  apply Hret. vm_compute. reflexivity.
Defined.

(** C2 on a run of [duo]: the second bird jumps at every tick and leaves
    through the top in the 37th iteration, with fitness 2.7; the first one
    is still flying when, in the 95th iteration, the first obstacle is
    passed.  That iteration raises the fitness of the dead bird's genome
    to 7.7. *)
Theorem dead_genome_gets_pass_bonus :
  let s := state_after 94 duo in
  let s' := state_after 95 duo in
  tick box_world s = Ok s' /\
  pass_event box_world s = true /\
  alive_at (agents s) 0 = true /\ alive_at (agents s) 1 = false /\
  ticks_alive 1 (history box_world 94 [] (start box_world duo 0 sample_rng))
  = 37%nat /\
  fitness (nth 1 (agents s) idle) == 2.7 /\
  fitness (nth 1 (agents s') idle) == 2.7 + 5 /\
  is_alive (nth 1 (agents s') idle) = false.
Proof.
  cbv zeta.
  split; [vm_compute; reflexivity |].
  split; [vm_compute; reflexivity |].
  split; [vm_compute; reflexivity |].
  split; [vm_compute; reflexivity |].
  split; [vm_compute; reflexivity |].
  split; [vm_compute; reflexivity |].
  split; vm_compute; reflexivity.
Qed.



Lemma displacement_after_jump_witness :
  Bird.rise (Bird.init 230 350) 2 <= Bird.rise (Bird.init 230 350) 9.
Proof.
  apply (displacement_after_jump (Bird.init 230 350) 2 9); lia.
Defined.

Lemma ground_segments_adjacent_witness :
  let b := Base.after 672 730 200 in
  (Z.min (Base.x1 b) (Base.x2 b) <= 0)%Z /\
  (WIN_WIDTH <= Z.min (Base.x1 b) (Base.x2 b) + 2 * 672)%Z.
Proof.
  apply (ground_segments_adjacent 672 730 200). unfold WIN_WIDTH. lia.
Defined.

Lemma move_advances_one_tick_witness :
  let b := Bird.after_jump (Bird.init 230 350) 7 in
  Bird.y (Bird.move b) = Bird.y b + 16.
Proof.
  intro b.
  destruct (move_advances_one_tick b) as (_ & Hhi & _).
  apply Hhi. vm_compute. discriminate.
Defined.

Lemma score_counts_pass_ticks_witness :
  match tick box_world twin_scene with
  | Ok s' => score s' = 1%Z
  | IndexError => False
  end /\
  (score (start box_world duo 0 sample_rng) <= score (state_after 95 duo))%Z.
Proof.
  destruct (score_counts_pass_ticks box_world) as (Htick & Hrun & _).
  split.
  - specialize (Htick twin_scene).
    destruct (tick box_world twin_scene); [| discriminate].
    rewrite Htick. vm_compute. reflexivity.
  - apply (Hrun 95%nat [] (start box_world duo 0 sample_rng)
                (state_after 95 duo)).
    vm_compute. reflexivity.
Defined.

Lemma empty_generation_returns_witness :
  loop box_world 1 [] (state_after 30 solo) = Returned (state_after 30 solo).
Proof.
  destruct (empty_generation_returns box_world 0 [] 0 sample_rng)
    as (_ & _ & _ & Hdead).
  apply (Hdead (state_after 30 solo)). vm_compute. reflexivity.
Defined.

(** C9 on the run of [duo]: the bird that left through the top in the
    37th iteration goes through the 95th as it is, its network still at
    its 37 activations. *)
Lemma death_is_final_witness :
  exists af,
    nth_error (agents (state_after 95 duo)) 1 = Some af /\
    is_alive af = false /\
    bird af = bird (nth 1 (agents (state_after 94 duo)) idle) /\
    net af = net (nth 1 (agents (state_after 94 duo)) idle) /\
    net af = (37%nat, flapper).
Proof.
  destruct (death_is_final box_world 1 [] (state_after 94 duo)
              (state_after 95 duo) 1%nat
              (nth 1 (agents (state_after 94 duo)) idle))
    as (af & Haf & _ & Hdead & _).
  - vm_compute. reflexivity.
  - vm_compute. reflexivity.
  - exists af. split; [exact Haf |].
    destruct Hdead as (Hal & Hb & Hn & _); [vm_compute; reflexivity |].
    split; [exact Hal |]. split; [exact Hb |]. split; [exact Hn |].
    apply (eq_trans Hn). vm_compute. reflexivity.
Defined.

Lemma lead_obstacle_in_bounds_witness :
  let s := state_after 117 ace in
  pipes s <> [] /\ pipe_ind box_world s = 1%nat /\
  (2 <= length (pipes s))%nat.
Proof.
  intro s.
  destruct (lead_obstacle_in_bounds box_world 118 [] ace 0 sample_rng)
    as (_ & _ & Hin).
  destruct (Hin s) as (Hne & _ & _ & H1 & _).
  - apply (nth_error_In _ 117). vm_compute. reflexivity.
  - assert (Hind : pipe_ind box_world s = 1%nat) by (vm_compute; reflexivity).
    split; [exact Hne |]. split; [exact Hind | exact (H1 Hind)].
Defined.

End Samples.

(** * Further properties *)

(** ** The bird *)

Section BirdFacts.

Import Bird.

Lemma after_jump_step (b : Bird.t) (n : nat) :
  y (after_jump b (S n))
  == y (after_jump b n) + nth n [-10; -15; -17; -16; -12; -5; 7] 16.
Proof. pose proof (rise_value b n) as H. unfold rise in H. lra. Qed.

Lemma after_jump_late (b : Bird.t) (n : nat) :
  y b - 68 <= y (after_jump b (7 + n)).
Proof.
  induction n as [| n IH].
  - pose proof (after_jump_step b 0) as H0.
    pose proof (after_jump_step b 1) as H1.
    pose proof (after_jump_step b 2) as H2.
    pose proof (after_jump_step b 3) as H3.
    pose proof (after_jump_step b 4) as H4.
    pose proof (after_jump_step b 5) as H5.
    pose proof (after_jump_step b 6) as H6.
    cbn [nth] in *. change (y (after_jump b 0)) with (y b) in H0.
    cbn [Nat.add]. lra.
  - pose proof (after_jump_step b (7 + n)) as H.
    rewrite nth_overflow in H by (cbn; lia).
    replace (7 + S n)%nat with (S (7 + n)) by lia. lra.
Qed.

(** X1: a jump lifts the bird by 10 in the next tick and by 75 in all,
    reached after six ticks; however long it is left alone afterwards it
    is never higher than that. *)
Theorem jump_apex (b : Bird.t) (n : nat) :
  y (after_jump b 1) == y b - 10 /\
  y (after_jump b 6) == y b - 75 /\
  y b - 75 <= y (after_jump b n) /\
  x (after_jump b n) = x b.
Proof.
  pose proof (after_jump_step b 0) as H0.
  pose proof (after_jump_step b 1) as H1.
  pose proof (after_jump_step b 2) as H2.
  pose proof (after_jump_step b 3) as H3.
  pose proof (after_jump_step b 4) as H4.
  pose proof (after_jump_step b 5) as H5.
  cbn [nth] in *. change (y (after_jump b 0)) with (y b) in H0.
  split; [lra |]. split; [lra |]. split.
  - destruct (le_lt_dec 7 n) as [Hge | Hlt].
    + pose proof (after_jump_late b (n - 7)) as Hl.
      replace (7 + (n - 7))%nat with n in Hl by lia. lra.
    + do 7 (destruct n as [| n]; [change (y (after_jump b 0)) with (y b); lra |]).
      lia.
  - unfold after_jump. induction n as [| n IH]; [reflexivity |].
    rewrite Nat.iter_succ. exact IH.
Qed.

End BirdFacts.

Section BirdFacts2.

Import Bird.

Lemma apply_ops_snoc (ops : list bird_op) (o : bird_op) (b : Bird.t) :
  apply_ops (ops ++ [o]) b = apply_op (apply_ops ops b) o.
Proof. unfold apply_ops. rewrite fold_left_app. reflexivity. Qed.

(** What a new bird keeps true whatever is done to it. *)
Lemma ops_invariant (x0 y0 : Z) (ops : list bird_op) :
  let b := apply_ops ops (init x0 y0) in
  ((tilt b = 0%Z /\ height b = y b) \/
   exists k, (0 <= k <= 6)%Z /\ tilt b = (25 - 20 * k)%Z) /\
  (0 <= img b < 3)%Z /\ (0 <= img_count b)%Z /\
  (0 <= tick_count b)%Z /\ x b = x0 /\ alive b = true.
Proof.
  induction ops as [| o ops IH] using rev_ind.
  - cbn. repeat split; try lia. left. split; reflexivity.
  - rewrite apply_ops_snoc. cbv zeta in *.
    set (b := apply_ops ops (init x0 y0)) in *.
    destruct IH as (Ht & Hi & Hc & Hk & Hx & Ha).
    destruct o; cbn [apply_op].
    + (* jump *)
      cbn. repeat split; try assumption; try lia.
      destruct Ht as [[Ht _] | Ht]; [left; split; [exact Ht | reflexivity] | right; exact Ht].
    + (* move *)
      cbn [move tilt img img_count tick_count x alive height y].
      split; [| repeat split; try assumption; lia].
      right.
      pose proof (displacement_le_16 (vel b) (tick_count b + 1)) as Hd.
      destruct Ht as [[Ht Hh] | (k & Hk6 & Ht)].
      * assert (Hup : Qltb (y b + displacement (vel b) (tick_count b + 1))
                           (height b + 50) = true)
          by (apply Qltb_true; rewrite Hh; lra).
        rewrite Hup, orb_true_r, Ht. cbn. exists 0%Z. split; [lia | reflexivity].
      * rewrite Ht. unfold MAX_ROTATION, ROT_VEL.
        destruct (_ || _).
        -- destruct (25 - 20 * k <? 25)%Z eqn:E.
           ++ exists 0%Z. split; [lia | reflexivity].
           ++ exists k. split; [lia | reflexivity].
        -- destruct (-90 <? 25 - 20 * k)%Z eqn:E.
           ++ apply Z.ltb_lt in E. exists (k + 1)%Z. split; lia.
           ++ exists k. split; [lia | reflexivity].
    + (* draw *)
      unfold draw. unfold N_IMGS, ANIMATION_TIME.
      destruct (tilt b <=? -80)%Z;
        cbn [tilt img img_count tick_count x alive height y].
      * repeat split; try assumption; lia.
      * pose proof (Z.mod_pos_bound ((img_count b + 1) / 5) 3).
        repeat split; try assumption; try lia.
Qed.

(** X2: whatever sequence of jumps, ticks and drawings a new bird goes
    through, its tilt stays between -95 and 25 (it is 0, or 25 less a
    multiple of 20), its frame index is one of 0, 1, 2, its counters are
    not negative and its abscissa is the one it was created with.  The
    tilt does reach -95, below the -90 the code compares with: ten ticks
    of fall are enough. *)
Theorem bird_stays_in_range (x0 y0 : Z) (ops : list bird_op) :
  let b := apply_ops ops (init x0 y0) in
  (-95 <= tilt b <= 25)%Z /\
  (tilt b = 0%Z \/ (tilt b mod 20 = 5)%Z) /\
  (0 <= img b < 3)%Z /\ (0 <= img_count b)%Z /\ (0 <= tick_count b)%Z /\
  x b = x0 /\
  tilt (apply_ops (repeat DoMove 10) (init 230 350)) = (-95)%Z.
Proof.
  intro b. destruct (ops_invariant x0 y0 ops) as (Ht & Hi & Hc & Hk & Hx & _).
  fold b in Ht, Hi, Hc, Hk, Hx.
  split; [destruct Ht as [[Ht _] | (k & Hk6 & Ht)]; lia |].
  split.
  { destruct Ht as [[Ht _] | (k & Hk6 & Ht)]; [left; exact Ht | right].
    rewrite Ht. replace (25 - 20 * k)%Z with (5 + (1 - k) * 20)%Z by lia.
    rewrite Z.mod_add by lia. reflexivity. }
  repeat split; try assumption; try lia.
Qed.

End BirdFacts2.

Section MoreBirdFacts.

Import Bird.

Lemma draw_n_gentle (b : Bird.t) (n : nat) :
  (-80 < tilt b)%Z ->
  tilt (Nat.iter n draw b) = tilt b /\
  img_count (Nat.iter n draw b) = (img_count b + Z.of_nat n)%Z /\
  y (Nat.iter n draw b) = y b /\ vel (Nat.iter n draw b) = vel b /\
  tick_count (Nat.iter n draw b) = tick_count b.
Proof.
  intro Ht. induction n as [| n (IHt & IHc & IHy & IHv & IHk)].
  - cbn. repeat split. lia.
  - rewrite Nat.iter_succ. unfold draw at 1 3 5 7 9.
    assert (E : (tilt (Nat.iter n draw b) <=? -80)%Z = false)
      by (apply Z.leb_gt; lia).
    rewrite E. cbn [tilt img_count y vel tick_count].
    repeat split; try assumption. lia.
Qed.

(** X3: drawing changes nothing of a bird but its animation.  While the
    tilt is above -80, [n] drawings in a row advance the counter by [n]
    and show frame ((counter + n) / 5) mod 3: a new frame every five
    drawings, over the three frames in turn.  At a tilt of -80 or less
    the bird is shown on frame 1 with the counter at 10, however often it
    is drawn. *)
Theorem draw_animation (b : Bird.t) (n : nat) :
  (x (draw b) = x b /\ y (draw b) = y b /\ vel (draw b) = vel b /\
   tick_count (draw b) = tick_count b /\ tilt (draw b) = tilt b /\
   height (draw b) = height b /\ alive (draw b) = alive b) /\
  ((-80 < tilt b)%Z ->
   img_count (Nat.iter (S n) draw b) = (img_count b + Z.of_nat (S n))%Z /\
   img (Nat.iter (S n) draw b)
   = (((img_count b + Z.of_nat (S n)) / 5) mod 3)%Z) /\
  ((tilt b <= -80)%Z ->
   img (Nat.iter (S n) draw b) = 1%Z /\
   img_count (Nat.iter (S n) draw b) = 10%Z /\
   draw (draw b) = draw b).
Proof.
  split; [| split].
  - unfold draw. destruct (tilt b <=? -80)%Z; repeat split.
  - intro Ht. destruct (draw_n_gentle b n Ht) as (Hn & Hc & _).
    rewrite Nat.iter_succ. unfold draw at 1 3.
    assert (E : (tilt (Nat.iter n draw b) <=? -80)%Z = false)
      by (apply Z.leb_gt; lia).
    rewrite E. cbn [img img_count]. rewrite Hc.
    unfold ANIMATION_TIME, N_IMGS.
    replace (img_count b + Z.of_nat n + 1)%Z
      with (img_count b + Z.of_nat (S n))%Z by lia.
    split; reflexivity.
  - intro Ht.
    assert (E : (tilt b <=? -80)%Z = true) by (apply Z.leb_le; exact Ht).
    assert (Hfix : draw (draw b) = draw b).
    { unfold draw. rewrite E. cbn [tilt]. rewrite E. reflexivity. }
    assert (Hall : Nat.iter (S n) draw b = draw b).
    { induction n as [| n IH]; [reflexivity |].
      rewrite Nat.iter_succ, IH. exact Hfix. }
    rewrite Hall. split; [| split; [| exact Hfix]];
      unfold draw; rewrite E; reflexivity.
Qed.

End MoreBirdFacts.

Section PipeFacts.

Import Pipe.

(** X4: [n] ticks take an obstacle exactly 5 * n to the left and leave its
    height, its two extents and its flag alone. *)
Theorem pipe_moves (p : Pipe.t) (n : nat) :
  let q := Nat.iter n move p in
  x q = (x p - 5 * Z.of_nat n)%Z /\
  height q = height p /\ top q = top p /\ bottom q = bottom p /\
  passed q = passed p.
Proof.
  induction n as [| n IH]; cbv zeta in *.
  - cbn [Nat.iter nat_rect Z.of_nat]. repeat split. lia.
  - rewrite Nat.iter_succ. destruct IH as (Hx & Hh & Ht & Hb & Hp).
    cbn [move x height top bottom passed]. unfold VEL.
    repeat split; try assumption. lia.
Qed.

End PipeFacts.

(** ** The birds that live *)

Section Survivors.

Import Neat.

Context (w : World).

Implicit Types (a : Agent w) (s : State w).

Lemma bound_alive by_ a :
  is_alive (bound w by_ a) = true ->
  bound w by_ a = a /\ out_of_bounds w by_ (bird a) = false.
Proof.
  unfold bound. destruct (is_alive a) eqn:Hal; cbn [andb].
  - destruct (out_of_bounds w by_ (bird a)); [discriminate |].
    intros _. split; reflexivity.
  - congruence.
Qed.

(** A bird alive at the end of an iteration has gone through it without a
    hit, was found in bounds after its move, and has been drawn. *)
Lemma survivor s lead a :
  is_alive (agent_after w s lead a) = true ->
  is_alive a = true /\
  bird (agent_after w s lead a) = Bird.draw (bird (decide w lead a)) /\
  out_of_bounds w (Base.y (base s)) (bird (decide w lead a)) = false.
Proof.
  intro Hal'.
  destruct (agent_after_balance w s lead a) as (_ & Hal & _).
  rewrite Hal' in Hal. cbv zeta in Hal.
  destruct (is_alive a) eqn:Ha; [| discriminate]. cbn [andb negb] in Hal.
  destruct (is_alive (strike_all (pipes s) (decide w lead a))) eqn:H2;
    [| discriminate].
  split; [reflexivity |].
  assert (E2 : strike_all (pipes s) (decide w lead a) = decide w lead a).
  { destruct (strike_all_cases w (pipes s) (decide w lead a)) as [E | [_ E]];
      [exact E |]. rewrite E in H2. discriminate. }
  unfold agent_after in *. rewrite E2 in *.
  set (a3 := if pass_event w s then reward (decide w lead a)
             else decide w lead a) in *.
  assert (Hb3 : bird a3 = bird (decide w lead a))
    by (subst a3; destruct (pass_event w s); reflexivity).
  destruct (render_facts w (bound w (Base.y (base s)) a3)) as (Hr & _).
  rewrite Hal' in Hr. symmetry in Hr.
  destruct (bound_alive _ _ Hr) as [Eb Hin]. rewrite Eb in *.
  rewrite Hb3 in Hin. split; [| exact Hin].
  unfold render. rewrite Hr. cbn [bird]. rewrite Hb3. reflexivity.
Qed.

Lemma in_bounds by_ (b : Bird.t) :
  out_of_bounds w by_ b = false ->
  0 <= Bird.y b /\ Bird.y b < inject_Z by_.
Proof.
  unfold out_of_bounds. intro H. apply orb_false_elim in H as [Hg Ht].
  apply Qle_bool_false in Hg. apply Qltb_false in Ht.
  split; [exact Ht |].
  assert (0 <= inject_Z (Z.of_nat (bird_img_height w (Bird.img b)))).
  { change 0 with (inject_Z 0). rewrite <- Zle_Qle. lia. }
  lra.
Qed.

Lemma draw_physics (b : Bird.t) :
  Bird.y (Bird.draw b) = Bird.y b /\ Bird.vel (Bird.draw b) = Bird.vel b /\
  Bird.tick_count (Bird.draw b) = Bird.tick_count b.
Proof. unfold Bird.draw. destruct (_ <=? _)%Z; repeat split. Qed.

Lemma decide_y lead a :
  is_alive a = true ->
  Bird.y (bird (decide w lead a)) = Bird.y (Bird.move (bird a)).
Proof.
  intro Ha. unfold decide. rewrite Ha.
  destruct (activate w (net a) _ _ _) as [out n'].
  cbn [bird]. destruct (Qltb 0.5 out); reflexivity.
Qed.

(** The invariant of a generation: the ground line at 730 and every living
    bird between the top of the window and that line. *)
Lemma tick_on_screen s s' :
  Base.y (base s) = 730%Z ->
  tick w s = Ok s' ->
  Base.y (base s') = 730%Z /\
  Forall (fun a => is_alive a = true ->
                   0 <= Bird.y (bird a) /\ Bird.y (bird a) < 730) (agents s').
Proof.
  intros Hby Ht.
  destruct (tick_spec w s s' Ht) as (lead & _ & _ & Hags & _ & _ & Hbase & _).
  split; [rewrite Hbase; exact Hby |].
  rewrite Hags. apply Forall_forall. intros a' Ha'.
  apply in_map_iff in Ha' as (a & <- & _). intro Hal'.
  destruct (survivor s lead a Hal') as (_ & Hb & Hin).
  rewrite Hby in Hin. apply in_bounds in Hin.
  rewrite Hb. destruct (draw_physics (bird (decide w lead a))) as [Hy _].
  rewrite Hy. exact Hin.
Qed.

Lemma history_on_screen fuel : forall quits s,
  Base.y (base s) = 730%Z ->
  Forall (fun a => is_alive a = true ->
                   0 <= Bird.y (bird a) /\ Bird.y (bird a) < 730) (agents s) ->
  let ok := fun s1 : State w =>
              Forall (fun a => is_alive a = true ->
                               0 <= Bird.y (bird a) /\ Bird.y (bird a) < 730)
                     (agents s1) in
  Forall ok (history w fuel quits s) /\
  (forall sf, final_state (loop w fuel quits s) = Some sf -> ok sf).
Proof.
  induction fuel as [| fuel IH]; intros quits s Hby Hs ok.
  - cbn. split; [constructor |]. intros sf H. injection H as <-. exact Hs.
  - cbn [history loop]. destruct (hd false quits).
    + split; [constructor | discriminate].
    + destruct (alive_birds s).
      * split; [constructor |]. intros sf H. injection H as <-. exact Hs.
      * destruct (tick w s) as [s' |] eqn:Ht.
        -- destruct (tick_on_screen s s' Hby Ht) as [Hby' Hs'].
           destruct (IH (tl quits) s' Hby' Hs') as [Hh Hf].
           split; [constructor; assumption | exact Hf].
        -- split; [constructor; [exact Hs | constructor] | discriminate].
Qed.

(** X11: in every state in which a generation starts an iteration or ends,
    every living bird is between the top of the window and the ground
    line: 0 <= y < 730. *)
Theorem living_birds_on_screen fuel quits genomes gen g :
  let s0 := start w genomes gen g in
  let ok := fun s : State w =>
              forall a, In a (agents s) -> is_alive a = true ->
                        0 <= Bird.y (bird a) /\ Bird.y (bird a) < 730 in
  (forall s, In s (history w fuel quits s0) -> ok s) /\
  (forall sf, final_state (eval_genomes w fuel quits genomes gen g) = Some sf ->
              ok sf).
Proof.
  intros s0 ok.
  assert (Hby : Base.y (base s0) = 730%Z).
  { subst s0. unfold start. destruct (Pipe.init _ 700 g). reflexivity. }
  assert (Hs0 : Forall (fun a => is_alive a = true ->
                   0 <= Bird.y (bird a) /\ Bird.y (bird a) < 730) (agents s0)).
  { apply Forall_forall. intros a Ha _.
    apply In_nth_error in Ha as [i Hi].
    destruct (start_agent w genomes gen g i a Hi) as (_ & _ & Hb & _).
    rewrite Hb. split; [unfold Qle | unfold Qlt]; cbn; lia. }
  destruct (history_on_screen fuel quits s0 Hby Hs0) as [Hh Hf].
  split.
  - intros s Hin a Ha. rewrite Forall_forall in Hh.
    specialize (Hh s Hin). rewrite Forall_forall in Hh. apply Hh, Ha.
  - intros sf Hfin a Ha. specialize (Hf sf Hfin).
    rewrite Forall_forall in Hf. apply Hf, Ha.
Qed.

End Survivors.

(** ** A generation as a whole *)

Section GenerationFacts.

Import Neat.

Context (w : World).

Implicit Types (a : Agent w) (s : State w).

Lemma tick_rng s s' :
  tick w s = Ok s' ->
  rng s'
  = (if pass_event w s
     then Random.mk (Random.raw (rng s)) (S (Random.pos (rng s)))
     else rng s).
Proof.
  unfold tick, pass_event. rewrite after_pipes_spec.
  destruct (nth_error (pipes s) (pipe_ind w s)) as [lead |]; [| discriminate].
  destruct (existsb _ (pipes s)); intro H; injection H as <-; reflexivity.
Qed.

(** What a run leaves of the state it starts from, besides birds, score
    and obstacles. *)
Lemma run_frame fuel : forall quits s sf,
  final_state (loop w fuel quits s) = Some sf ->
  let hist := history w fuel quits s in
  map genome (agents sf) = map genome (agents s) /\
  GEN sf = GEN s /\
  base sf
  = Nat.iter (length hist) (Base.move (Z.of_nat (base_img_width w))) (base s) /\
  Random.raw (rng sf) = Random.raw (rng s) /\
  Random.pos (rng sf) = (Random.pos (rng s) + pass_events w hist)%nat.
Proof.
  induction fuel as [| fuel IH]; intros quits s sf Hfin.
  - cbn in Hfin. injection Hfin as <-. cbn. repeat split. lia.
  - cbn [loop history] in *. destruct (hd false quits); [discriminate |].
    destruct (alive_birds s).
    + cbn in Hfin. injection Hfin as <-. cbn. repeat split. lia.
    + destruct (tick w s) as [s' |] eqn:Ht; [| discriminate].
      destruct (IH _ _ _ Hfin) as (Hg & Hgen & Hb & Hraw & Hpos).
      destruct (tick_spec w s s' Ht)
        as (lead & _ & _ & Hags & _ & _ & Hbase & HGEN).
      pose proof (tick_rng s s' Ht) as Hrng.
      cbv zeta. cbn [length]. rewrite Nat.iter_succ_r, pass_events_cons.
      split; [| split; [| split; [| split]]].
      * rewrite Hg, Hags, map_map. apply map_ext. intro a0.
        apply (agent_after_balance w s lead a0).
      * congruence.
      * rewrite Hb, Hbase. reflexivity.
      * rewrite Hraw, Hrng. destruct (pass_event w s); reflexivity.
      * rewrite Hpos, Hrng. destruct (pass_event w s); cbn; lia.
Qed.

(** X5: when a generation ends, by return or by lack of fuel, the cohort
    holds the genomes it was called with, each once and in the order
    given, and the generation counter is one more than before. *)
Theorem generation_keeps_cohort fuel quits genomes gen g (sf : State w) :
  final_state (eval_genomes w fuel quits genomes gen g) = Some sf ->
  map genome (agents sf) = map snd genomes /\
  length (agents sf) = length genomes /\
  GEN sf = (gen + 1)%Z.
Proof.
  intro Hfin. unfold eval_genomes in Hfin.
  destruct (run_frame fuel quits _ sf Hfin) as (Hg & Hgen & _).
  assert (H0 : map genome (agents (start w genomes gen g)) = map snd genomes
               /\ GEN (start w genomes gen g) = (gen + 1)%Z).
  { unfold start. destruct (Pipe.init _ 700 g). cbn [agents GEN].
    rewrite map_map. split; reflexivity. }
  destruct H0 as [H0 H1]. rewrite H0 in Hg. rewrite H1 in Hgen.
  split; [exact Hg |]. split; [| exact Hgen].
  rewrite <- (length_map genome), Hg, length_map. reflexivity.
Qed.

(** X6: a generation draws from the random generator once for the first
    obstacle and once more for each point of score, and not otherwise: at
    its end the cursor of the generator has advanced by the score plus
    one. *)
Theorem generation_draws fuel quits genomes gen g (sf : State w) :
  final_state (eval_genomes w fuel quits genomes gen g) = Some sf ->
  Random.raw (rng sf) = Random.raw g /\
  Z.of_nat (Random.pos (rng sf)) = (Z.of_nat (Random.pos g) + score sf + 1)%Z /\
  (0 <= score sf)%Z.
Proof.
  intro Hfin. unfold eval_genomes in Hfin.
  destruct (run_frame fuel quits _ sf Hfin) as (_ & _ & _ & Hraw & Hpos).
  pose proof (run_score w fuel quits _ sf Hfin) as Hsc.
  assert (H0 : rng (start w genomes gen g)
               = Random.mk (Random.raw g) (S (Random.pos g))
               /\ score (start w genomes gen g) = 0%Z).
  { unfold start. split; reflexivity. }
  destruct H0 as [H0 H1]. rewrite H0 in Hraw, Hpos. rewrite H1 in Hsc.
  cbn [Random.raw Random.pos] in Hraw, Hpos.
  split; [exact Hraw |]. split; lia.
Qed.

(** X7: the ground of a generation is the ground scroller run for as many
    ticks as the loop made iterations; so its two segments touch in every
    state the generation ends in. *)
Theorem generation_ground fuel quits genomes gen g (sf : State w) :
  final_state (eval_genomes w fuel quits genomes gen g) = Some sf ->
  let W := Z.of_nat (base_img_width w) in
  let n := length (history w fuel quits (start w genomes gen g)) in
  base sf = Base.after W 730 n /\
  Base.adjacent W (base sf) /\ Base.y (base sf) = 730%Z.
Proof.
  intro Hfin. unfold eval_genomes in Hfin.
  destruct (run_frame fuel quits _ sf Hfin) as (_ & _ & Hb & _).
  cbv zeta in *.
  assert (H0 : base (start w genomes gen g)
               = Base.init (Z.of_nat (base_img_width w)) 730).
  { unfold start. destruct (Pipe.init _ 700 g). reflexivity. }
  rewrite H0 in Hb. fold (Base.after (Z.of_nat (base_img_width w)) 730
    (length (history w fuel quits (start w genomes gen g)))) in Hb.
  split; [exact Hb |]. rewrite Hb. unfold Base.after.
  generalize (length (history w fuel quits (start w genomes gen g))).
  intro n. induction n as [| n [IHa IHy]].
  - split; [left |]; reflexivity.
  - rewrite Nat.iter_succ. split; [apply move_adjacent, IHa | exact IHy].
Qed.

End GenerationFacts.

(** ** The obstacles of a generation *)

Section ObstacleCourse.

Import Neat.

Context (w : World).

Implicit Types (a : Agent w) (s : State w) (p q : Pipe.t).

Lemma spaced_filter (f : Pipe.t -> bool) ps :
  spaced ps -> spaced (filter f ps).
Proof.
  unfold spaced. induction 1 as [| p ps Hs IH Hall]; cbn; [constructor |].
  destruct (f p); [| exact IH].
  constructor; [exact IH |].
  rewrite Forall_forall in *. intros q Hq. apply Hall.
  apply filter_In in Hq. tauto.
Qed.

Lemma advance_x rx p : Pipe.x (advance rx p) = (Pipe.x p - 5)%Z.
Proof. unfold advance. destruct (crossed _ _); reflexivity. Qed.

Lemma spaced_advance rx ps : spaced ps -> spaced (map (advance rx) ps).
Proof.
  unfold spaced. induction 1 as [| p ps Hs IH Hall]; cbn; [constructor |].
  constructor; [exact IH |].
  rewrite Forall_forall in *. intros q Hq.
  apply in_map_iff in Hq as (q0 & <- & Hq0).
  rewrite !advance_x. specialize (Hall q0 Hq0). lia.
Qed.

Lemma spaced_snoc ps q :
  spaced ps -> Forall (fun p => (Pipe.x p + 446 <= Pipe.x q)%Z) ps ->
  spaced (ps ++ [q]).
Proof.
  unfold spaced. induction 1 as [| p ps Hs IH Hall]; intro Hq; cbn.
  - constructor; constructor.
  - inversion Hq as [| ? ? Hp Hq']; subst.
    constructor; [apply IH, Hq' |].
    apply Forall_app. split; [exact Hall | constructor; [exact Hp | constructor]].
Qed.

(** An obstacle after its move and its marking, the birds being at 230. *)
Lemma placed_advance p :
  placed w p ->
  let q := advance 230 p in
  (Pipe.x q <= 700)%Z /\
  (Pipe.passed q = true -> Pipe.x q < 230)%Z /\
  (Pipe.passed q = false -> 230 <= Pipe.x q)%Z /\
  (50 <= Pipe.height q < 350)%Z /\
  Pipe.bottom q = (Pipe.height q + 150)%Z /\
  Pipe.top q = (Pipe.height q - Z.of_nat (pipe_img_height w))%Z.
Proof.
  intros (_ & H700 & Hp & Hu & Hh & Hb & Ht). unfold advance, crossed.
  cbn [Pipe.move Pipe.passed Pipe.x].
  destruct (Pipe.passed p) eqn:Epass; cbn [negb andb].
  - cbn [Pipe.move Pipe.passed Pipe.x Pipe.height Pipe.top Pipe.bottom].
    unfold Pipe.VEL. rewrite Epass. specialize (Hp eq_refl).
    repeat split; try assumption; try lia.
  - specialize (Hu eq_refl). unfold Pipe.VEL.
    destruct (Pipe.x p - 5 <? 230)%Z eqn:E;
      cbn [Pipe.move Pipe.set_passed Pipe.passed Pipe.x Pipe.height
           Pipe.top Pipe.bottom]; unfold Pipe.VEL; rewrite ?Epass.
    + apply Z.ltb_lt in E.
      repeat split; try assumption; try lia; try discriminate.
    + apply Z.ltb_ge in E.
      repeat split; try assumption; try lia; try discriminate.
Qed.

Lemma placed_new g :
  placed w (fst (Pipe.init (pipe_img_height w) (WIN_WIDTH + 100) g)) /\
  Pipe.x (fst (Pipe.init (pipe_img_height w) (WIN_WIDTH + 100) g)) = 676%Z /\
  Pipe.passed (fst (Pipe.init (pipe_img_height w) (WIN_WIDTH + 100) g)) = false.
Proof.
  unfold Pipe.init.
  destruct (set_height_fields (pipe_img_height w)
              (Pipe.mk (WIN_WIDTH + 100) false 0 0 0) g)
    as (Hx & Hp & Hh & Ht & Hb).
  cbv zeta in *. cbn [Pipe.x Pipe.passed] in Hx, Hp.
  change (WIN_WIDTH + 100)%Z with 676%Z in *.
  pose proof (randrange_bounds 50 350 g ltac:(lia)) as Hr.
  rewrite <- Hh in Hr. unfold Pipe.GAP in Hb.
  split; [| split; assumption].
  unfold placed. rewrite Hx, Hp.
  repeat split; try assumption; try lia; discriminate.
Qed.

Lemma ref_x_230 s :
  well_formed w s -> agents s <> [] -> ref_x (agents s) = 230%Z.
Proof.
  intros [Hx _] Hne. destruct (agents s) as [| a ags]; [congruence |].
  inversion Hx; subst. assumption.
Qed.

Lemma start_on_course genomes gen g : on_course w (start w genomes gen g).
Proof.
  split; [apply start_well_formed |].
  unfold start, Pipe.init.
  destruct (set_height_fields (pipe_img_height w) (Pipe.mk 700 false 0 0 0) g)
    as (Hx & Hp & Hh & Ht & Hb).
  pose proof (randrange_bounds 50 350 g ltac:(lia)) as Hr.
  cbv zeta in *. rewrite <- Hh in Hr. unfold Pipe.GAP in Hb.
  cbn [Pipe.x Pipe.passed] in Hx, Hp.
  destruct (Pipe.set_height _ _ g) as [p g']. cbn [fst] in *. cbn [pipes].
  split.
  - constructor; constructor.
  - constructor; [| constructor]. unfold placed. rewrite Hx, Hp.
    repeat split; try assumption; try lia; discriminate.
Qed.

Lemma tick_on_course s s' :
  on_course w s -> agents s <> [] -> tick w s = Ok s' -> on_course w s'.
Proof.
  intros (Hwf & Hsp & Hpl) Hne Ht.
  pose proof (ref_x_230 s Hwf Hne) as Hrx.
  pose proof (tick_well_formed w s s' Hwf Ht) as Hwf'.
  destruct (tick_spec w s s' Ht) as (_ & _ & Hev & _ & _ & Hps' & _).
  rewrite Hrx in Hps', Hev.
  split; [exact Hwf' |].
  set (moved := map (advance 230) (pipes s)) in *.
  set (kept := filter (fun p => negb (off_screen w p)) moved) in *.
  assert (Hsp_kept : spaced kept) by (apply spaced_filter, spaced_advance, Hsp).
  assert (Hpl_moved : Forall (fun q =>
            (Pipe.x q <= 700)%Z /\
            (Pipe.passed q = true -> Pipe.x q < 230)%Z /\
            (Pipe.passed q = false -> 230 <= Pipe.x q)%Z /\
            (50 <= Pipe.height q < 350)%Z /\
            Pipe.bottom q = (Pipe.height q + 150)%Z /\
            Pipe.top q = (Pipe.height q - Z.of_nat (pipe_img_height w))%Z)
          moved).
  { subst moved. rewrite Forall_forall in *. intros q Hq.
    apply in_map_iff in Hq as (p & <- & Hp). apply placed_advance, Hpl, Hp. }
  assert (Hpl_kept : Forall (placed w) kept).
  { subst kept. rewrite Forall_forall in *. intros q Hq.
    apply filter_In in Hq as [Hq Hon]. specialize (Hpl_moved q Hq).
    unfold off_screen in Hon. apply negb_true_iff, Z.ltb_ge in Hon.
    unfold placed. tauto. }
  destruct (pass_event w s) eqn:Hpass.
  - destruct (placed_new (rng s)) as (Hnew & Hx & _). rewrite Hps'. split.
    + apply spaced_snoc; [exact Hsp_kept |]. rewrite Hx.
      (* a pass event: every obstacle has been passed *)
      destruct Hwf as [_ (olds & p0 & Hps & Holds & Hp0)].
      destruct (obstacles_step 230 olds p0 Holds Hp0) as (He & Hm & Hall).
      rewrite Hps, He in Hev.
      assert (Hpassed : Forall (fun q => Pipe.passed q = true) moved).
      { subst moved. rewrite Hps, Hm, <- Hev.
        apply Forall_app. split.
        - apply Forall_forall. rewrite forallb_forall in Hall. exact Hall.
        - constructor; [reflexivity | constructor]. }
      subst kept. rewrite Forall_forall in *. intros q Hq.
      apply filter_In in Hq as [Hq _].
      pose proof (Hpl_moved q Hq) as (_ & Hlt & _).
      specialize (Hlt (Hpassed q Hq)). lia.
    + apply Forall_app. split; [exact Hpl_kept |].
      constructor; [exact Hnew | constructor].
  - rewrite Hps', app_nil_r. split; assumption.
Qed.

Lemma history_on_course fuel : forall quits s,
  on_course w s ->
  Forall (fun s1 => on_course w s1 /\ alive_birds s1 <> [])
         (history w fuel quits s) /\
  (forall sf, final_state (loop w fuel quits s) = Some sf -> on_course w sf).
Proof.
  induction fuel as [| fuel IH]; intros quits s Hoc.
  - cbn. split; [constructor |]. intros sf H. injection H as <-. exact Hoc.
  - cbn [history loop]. destruct (hd false quits).
    + split; [constructor | discriminate].
    + destruct (alive_birds s) as [| a0 rest] eqn:Hlive.
      * split; [constructor |]. intros sf H. injection H as <-. exact Hoc.
      * assert (Hne : agents s <> []).
        { intro Hnil. unfold alive_birds in Hlive. rewrite Hnil in Hlive.
          discriminate. }
        destruct (tick w s) as [s' |] eqn:Ht.
        -- destruct (IH (tl quits) s' (tick_on_course s s' Hoc Hne Ht))
             as [Hh Hf].
           split; [| exact Hf].
           constructor; [| exact Hh]. split; [exact Hoc |].
           rewrite Hlive. discriminate.
        -- split; [| discriminate].
           constructor; [| constructor]. split; [exact Hoc |].
           rewrite Hlive. discriminate.
Qed.

(** X9: in every state in which a generation starts an iteration or ends,
    the obstacles are listed from left to right, each at least 446 from
    the next; none is off screen to the left or right of 700; the passed
    ones are left of the birds' abscissa 230 and the others are not; and
    each has its height in [50, 350), its bottom 150 below it and its top
    one sprite height above it. *)
Theorem obstacles_on_course fuel quits genomes gen g :
  let s0 := start w genomes gen g in
  (forall s, In s (history w fuel quits s0) ->
             spaced (pipes s) /\ Forall (placed w) (pipes s)) /\
  (forall sf, final_state (eval_genomes w fuel quits genomes gen g) = Some sf ->
              spaced (pipes sf) /\ Forall (placed w) (pipes sf)).
Proof.
  intro s0.
  destruct (history_on_course fuel quits s0 (start_on_course genomes gen g))
    as [Hh Hf].
  split.
  - intros s Hin. rewrite Forall_forall in Hh.
    destruct (Hh s Hin) as [(_ & Hsp & Hpl) _]. split; assumption.
  - intros sf Hfin. destruct (Hf sf Hfin) as (_ & Hsp & Hpl).
    split; assumption.
Qed.

(** X10: in every state in which a generation starts an iteration, the
    obstacle the networks are shown is the leftmost one whose right edge
    is not behind the birds: the lookup succeeds, the right edge of the
    obstacle found is at 230 or beyond, and the right edge of any
    obstacle before it in the list is left of 230. *)
Theorem lead_obstacle_ahead fuel quits genomes gen g (s : State w) :
  In s (history w fuel quits (start w genomes gen g)) ->
  exists lead,
    nth_error (pipes s) (pipe_ind w s) = Some lead /\
    (230 <= Pipe.x lead + Z.of_nat (pipe_img_width w))%Z /\
    Forall (fun p => (Pipe.x p + Z.of_nat (pipe_img_width w) < 230)%Z)
           (firstn (pipe_ind w s) (pipes s)).
Proof.
  intro Hin.
  destruct (history_on_course fuel quits _ (start_on_course genomes gen g))
    as [Hh _].
  rewrite Forall_forall in Hh.
  destruct (Hh s Hin) as [(Hwf & Hsp & Hpl) Hlive].
  destruct Hwf as [Hx (olds & p0 & Hps & Holds & Hp0)].
  unfold pipe_ind.
  destruct (alive_birds s) as [| a0 rest] eqn:Ha; [congruence |].
  assert (Hx0 : Bird.x (bird a0) = 230%Z).
  { rewrite Forall_forall in Hx. apply Hx.
    assert (Hin0 : In a0 (alive_birds s)) by (rewrite Ha; left; reflexivity).
    apply filter_In in Hin0. tauto. }
  destruct (pipes s) as [| p [| p1 ps]] eqn:Hpipes.
  - destruct olds; discriminate.
  - exists p. split; [reflexivity |]. split; [| constructor].
    assert (p = p0).
    { destruct olds as [| o [| o' olds']]; cbn in Hps;
        [congruence | discriminate | discriminate]. }
    subst p0. inversion Hpl as [| ? ? (Hw & _ & _ & Hu & _) _]; subst.
    specialize (Hu Hp0). lia.
  - rewrite Hx0.
    inversion Hpl as [| ? ? (Hw & _) Hpl']; subst.
    destruct (Pipe.x p + Z.of_nat (pipe_img_width w) <? 230)%Z eqn:E.
    + apply Z.ltb_lt in E. exists p1. split; [reflexivity |].
      unfold spaced in Hsp. inversion Hsp as [| ? ? _ Hall]; subst.
      inversion Hall as [| ? ? H01 _]; subst.
      split; [lia |]. cbn. constructor; [exact E | constructor].
    + apply Z.ltb_ge in E. exists p. split; [reflexivity |].
      split; [lia | constructor].
Qed.

End ObstacleCourse.

(** ** Generations that end *)

Section CalmGenerations.

Import Neat.

Context (w : World).

Implicit Types (a : Agent w) (s : State w).

Lemma decide_calm lead a :
  calm w -> is_alive a = true ->
  bird (decide w lead a) = Bird.move (bird a).
Proof.
  intros Hcalm Ha. unfold decide. rewrite Ha.
  pose proof (Hcalm (net a) (Bird.y (Bird.move (bird a)))
                (Qabs (Bird.y (Bird.move (bird a))
                       - inject_Z (Pipe.height lead)))
                (Qabs (Bird.y (Bird.move (bird a))
                       - inject_Z (Pipe.height lead + Pipe.GAP)))) as Hout.
  destruct (activate w (net a) _ _ _) as [out n']. cbn [fst] in Hout.
  apply Qltb_false in Hout. rewrite Hout. reflexivity.
Qed.

(** The birds of a calm generation after [n] iterations: those alive are
    where [n] ticks of fall have taken them, above the ground line. *)
Lemma tick_gliding n s s' :
  calm w ->
  Base.y (base s) = 730%Z ->
  Forall (fun a => is_alive a = true ->
            Bird.y (bird a) = Bird.y (glide n) /\
            Bird.vel (bird a) = Bird.vel (glide n) /\
            Bird.tick_count (bird a) = Bird.tick_count (glide n)) (agents s) ->
  tick w s = Ok s' ->
  Forall (fun a => is_alive a = true ->
            (Bird.y (bird a) = Bird.y (glide (S n)) /\
             Bird.vel (bird a) = Bird.vel (glide (S n)) /\
             Bird.tick_count (bird a) = Bird.tick_count (glide (S n))) /\
            Bird.y (glide (S n)) < 730) (agents s').
Proof.
  intros Hcalm Hby Hs Ht.
  destruct (tick_spec w s s' Ht) as (lead & _ & _ & Hags & _).
  rewrite Hags. apply Forall_forall. intros a' Ha'.
  apply in_map_iff in Ha' as (a & <- & Hin). intro Hal'.
  destruct (survivor w s lead a Hal') as (Hal & Hb & Hbounds).
  rewrite Forall_forall in Hs. destruct (Hs a Hin Hal) as (Hy & Hv & Hk).
  rewrite (decide_calm lead a Hcalm Hal) in Hb, Hbounds.
  rewrite Hby in Hbounds. apply in_bounds in Hbounds as [_ Hlt].
  destruct (draw_physics (Bird.move (bird a))) as (Dy & Dv & Dk).
  assert (Hmove : Bird.y (Bird.move (bird a)) = Bird.y (glide (S n)) /\
                  Bird.vel (Bird.move (bird a)) = Bird.vel (glide (S n)) /\
                  Bird.tick_count (Bird.move (bird a))
                  = Bird.tick_count (glide (S n))).
  { unfold glide. rewrite Nat.iter_succ. fold (glide n).
    cbn [Bird.move Bird.y Bird.vel Bird.tick_count].
    rewrite Hy, Hv, Hk. repeat split. }
  destruct Hmove as (My & Mv & Mk).
  rewrite Hb, Dy, Dv, Dk. rewrite My in Hlt.
  repeat split; assumption.
Qed.

Lemma glide_26 : 730 <= Bird.y (glide 26).
Proof. vm_compute. discriminate. Qed.

Lemma no_quit_step quits :
  no_quit quits -> hd false quits = false /\ no_quit (tl quits).
Proof.
  unfold no_quit. destruct quits as [| q quits]; cbn.
  - split; reflexivity.
  - intro H. apply andb_prop in H as [Hq Hr].
    destruct q; [discriminate | split; [reflexivity | exact Hr]].
Qed.

Lemma calm_loop fuel : forall n quits s,
  calm w -> no_quit quits ->
  well_formed w s -> Base.y (base s) = 730%Z ->
  Forall (fun a => is_alive a = true ->
            Bird.y (bird a) = Bird.y (glide n) /\
            Bird.vel (bird a) = Bird.vel (glide n) /\
            Bird.tick_count (bird a) = Bird.tick_count (glide n)) (agents s) ->
  (n = 0%nat \/ Bird.y (glide n) < 730 \/ alive_birds s = []) ->
  (26 - n < fuel)%nat ->
  exists sf,
    loop w fuel quits s = Returned sf /\
    (length (history w fuel quits s) <= 26 - n)%nat.
Proof.
  induction fuel as [| fuel IH]; intros n quits s Hcalm Hq Hwf Hby Hs Hn Hfuel;
    [lia |].
  destruct (no_quit_step quits Hq) as [Hhd Htl].
  cbn [loop history]. rewrite Hhd.
  destruct (alive_birds s) as [| a0 rest] eqn:Hlive.
  - exists s. split; [reflexivity | cbn; lia].
  - assert (Hn26 : (n < 26)%nat).
    { destruct (le_lt_dec 26 n) as [Hge | Hlt]; [| exact Hlt].
      exfalso. destruct Hn as [H0 | [Hlow | Hnone]]; [lia | | discriminate].
      assert (Hmono : forall k, (26 <= k)%nat -> 730 <= Bird.y (glide k)).
      { intros k Hk. induction Hk as [| k Hk IHk]; [exact glide_26 |].
        unfold glide in *. rewrite Nat.iter_succ.
        cbn [Bird.move Bird.y].
        assert (Hvel : forall m, Bird.vel (Nat.iter m Bird.move
                                   (Bird.init 230 350)) = 0
                                 /\ (0 <= Bird.tick_count
                                       (Nat.iter m Bird.move
                                          (Bird.init 230 350)))%Z).
        { intro m. induction m as [| m [IHv IHt]]; [split; [reflexivity | cbn; lia] |].
          rewrite Nat.iter_succ. cbn [Bird.move Bird.vel Bird.tick_count].
          split; [exact IHv | lia]. }
        destruct (Hvel k) as [Hv Ht0]. rewrite Hv.
        set (tc := (Bird.tick_count _ + 1)%Z).
        assert (0 <= Bird.displacement 0 tc).
        { unfold Bird.displacement.
          assert (Hraw : 0 <= 0 * inject_Z tc + 0.5 * 3 * inject_Z (tc ^ 2)).
          { unfold Qle. cbn -[Z.mul Z.add Z.pow]. rewrite Z.pow_2_r. nia. }
          destruct (Qle_bool 16 _); [cbn; lra |].
          apply Qltb_false in Hraw. rewrite Hraw. apply Qltb_false. exact Hraw. }
        lra. }
      specialize (Hmono n Hge). lra. }
    destruct (tick_defined w s (well_formed_pipes w s Hwf)) as [s' Ht].
    rewrite Ht.
    pose proof (tick_gliding n s s' Hcalm Hby Hs Ht) as Hs'.
    destruct (tick_on_screen w s s' Hby Ht) as [Hby' _].
    destruct (IH (S n) (tl quits) s' Hcalm Htl
                 (tick_well_formed w s s' Hwf Ht) Hby') as (sf & Hret & Hlen).
    + rewrite Forall_forall in *. intros a Ha Hal. apply (Hs' a Ha Hal).
    + destruct (alive_birds s') as [| a1 rest1] eqn:Hlive';
        [right; right; reflexivity |].
      right. left. rewrite Forall_forall in Hs'.
      assert (Hin1 : In a1 (alive_birds s')) by (rewrite Hlive'; left; reflexivity).
      apply filter_In in Hin1 as [Hin1 Hal1]. apply (Hs' a1 Hin1 Hal1).
    + lia.
    + exists sf. split; [exact Hret |]. cbn [length]. lia.
Qed.

(** X12: when no network ever asks for a jump and nobody closes the
    window, a generation ends: with fuel for 27 iterations its loop
    returns, after 26 iterations at most, every bird dead. *)
Theorem calm_generation_returns fuel quits genomes gen g :
  calm w -> no_quit quits -> (27 <= fuel)%nat ->
  exists sf,
    eval_genomes w fuel quits genomes gen g = Returned sf /\
    (length (history w fuel quits (start w genomes gen g)) <= 26)%nat /\
    Forall (fun a => is_alive a = false) (agents sf).
Proof.
  intros Hcalm Hq Hfuel. unfold eval_genomes.
  destruct (calm_loop fuel 0 quits (start w genomes gen g) Hcalm Hq
              (start_well_formed w genomes gen g)) as (sf & Hret & Hlen).
  - unfold start. destruct (Pipe.init _ 700 g). reflexivity.
  - apply Forall_forall. intros a Ha _.
    apply In_nth_error in Ha as [i Hi].
    destruct (start_agent w genomes gen g i a Hi) as (_ & _ & Hb & _).
    rewrite Hb. repeat split.
  - left. reflexivity.
  - lia.
  - exists sf. split; [exact Hret |]. split; [lia |].
    apply Forall_forall. intros a Ha.
    apply In_nth_error in Ha as [i Hi].
    exact (no_alive_birds w sf i a (loop_returned w fuel quits _ sf Hret) Hi).
Qed.

End CalmGenerations.

(** ** The score over time *)

Section Timeline.

Import Neat.

Context (w : World).

Implicit Types (a : Agent w) (s : State w).

Lemma timeline_step (n : Z) :
  (0 <= n)%Z ->
  (frontier n - 5 < 230 ->
   score_at (n + 1) = score_at n + 1 /\ frontier (n + 1) = 676)%Z /\
  (230 <= frontier n - 5 ->
   score_at (n + 1) = score_at n /\ frontier (n + 1) = frontier n - 5)%Z.
Proof.
  intro Hn. unfold score_at, frontier.
  destruct (n <? 95)%Z eqn:E; destruct (n + 1 <? 95)%Z eqn:E';
    try apply Z.ltb_lt in E; try apply Z.ltb_ge in E;
    try apply Z.ltb_lt in E'; try apply Z.ltb_ge in E';
    split; intro H; try lia.
  - assert (n = 94)%Z by lia. subst n. split; reflexivity.
  - Z.to_euclidean_division_equations. lia.
  - Z.to_euclidean_division_equations. lia.
Qed.

(** A state [n] iterations into a generation. *)
Lemma tick_timeline (n : Z) s s' :
  (0 <= n)%Z ->
  well_formed w s -> agents s <> [] ->
  score s = score_at n ->
  (exists olds p, pipes s = olds ++ [p] /\
                  forallb Pipe.passed olds = true /\
                  Pipe.passed p = false /\ Pipe.x p = frontier n) ->
  tick w s = Ok s' ->
  score s' = score_at (n + 1) /\
  (exists olds p, pipes s' = olds ++ [p] /\
                  forallb Pipe.passed olds = true /\
                  Pipe.passed p = false /\ Pipe.x p = frontier (n + 1)).
Proof.
  intros Hn Hwf Hne Hsc (olds & p & Hps & Holds & Hp & Hx) Ht.
  pose proof (ref_x_well_formed w s Hwf) as Hrx0.
  assert (Hrx : ref_x (agents s) = 230%Z).
  { destruct Hwf as [Hall _]. destruct (agents s) as [| a ags]; [congruence |].
    inversion Hall; subst. assumption. }
  destruct (tick_spec w s s' Ht) as (_ & _ & Hev & _ & Hsc' & Hps' & _).
  rewrite Hrx in Hev, Hps'. rewrite Hps in Hev, Hps'.
  destruct (obstacles_step 230 olds p Holds Hp) as (He & Hm & Hall).
  rewrite He in Hev. rewrite Hm, filter_app in Hps'.
  destruct (timeline_step n Hn) as [Hcross Hstay].
  unfold crossed in Hev. cbn [Pipe.move Pipe.passed Pipe.x] in Hev.
  rewrite Hp, Hx in Hev. unfold Pipe.VEL in Hev. cbn [negb andb] in Hev.
  destruct (frontier n - 5 <? 230)%Z eqn:E.
  - apply Z.ltb_lt in E. destruct (Hcross E) as [Hs1 Hf1].
    rewrite Hev in Hsc', Hps'. split; [lia |].
    eexists _, _. split; [exact Hps' |].
    split; [| split].
    + rewrite forallb_app, forallb_filter by exact Hall.
      unfold crossed. cbn [Pipe.move Pipe.passed Pipe.x].
      rewrite Hp, Hx. unfold Pipe.VEL. cbn [negb andb].
      apply Z.ltb_lt in E. rewrite E. cbn.
      destruct (negb _); reflexivity.
    + reflexivity.
    + rewrite Hf1. reflexivity.
  - apply Z.ltb_ge in E. destruct (Hstay E) as [Hs1 Hf1].
    rewrite Hev in Hsc', Hps'. split; [lia |].
    assert (Hc : crossed 230 (Pipe.move p) = false).
    { unfold crossed. cbn [Pipe.move Pipe.passed Pipe.x].
      rewrite Hp, Hx. unfold Pipe.VEL. cbn [negb andb].
      apply Z.ltb_ge. exact E. }
    rewrite Hc in Hps'. cbn [filter] in Hps'.
    rewrite (unpassed_on_screen w 230 p ltac:(lia) Hp Hc) in Hps'.
    cbn [negb] in Hps'. rewrite app_nil_r in Hps'.
    eexists _, _. split; [exact Hps' |].
    split; [apply forallb_filter, Hall |].
    split; [exact Hp |]. cbn [Pipe.move Pipe.x]. unfold Pipe.VEL. lia.
Qed.

Lemma run_timeline fuel : forall (n : Z) quits s sf,
  (0 <= n)%Z ->
  well_formed w s ->
  score s = score_at n ->
  (exists olds p, pipes s = olds ++ [p] /\
                  forallb Pipe.passed olds = true /\
                  Pipe.passed p = false /\ Pipe.x p = frontier n) ->
  final_state (loop w fuel quits s) = Some sf ->
  score sf = score_at (n + Z.of_nat (length (history w fuel quits s))).
Proof.
  induction fuel as [| fuel IH]; intros n quits s sf Hn Hwf Hsc Hfr Hfin.
  - cbn in Hfin. injection Hfin as <-. cbn. rewrite Z.add_0_r. exact Hsc.
  - cbn [loop history] in *. destruct (hd false quits); [discriminate |].
    destruct (alive_birds s) as [| a0 rest] eqn:Hlive.
    + cbn in Hfin. injection Hfin as <-. cbn. rewrite Z.add_0_r. exact Hsc.
    + assert (Hne : agents s <> []).
      { intro Hnil. unfold alive_birds in Hlive. rewrite Hnil in Hlive.
        discriminate. }
      destruct (tick w s) as [s' |] eqn:Ht; [| discriminate].
      destruct (tick_timeline n s s' Hn Hwf Hne Hsc Hfr Ht) as [Hsc' Hfr'].
      rewrite (IH (n + 1)%Z (tl quits) s' sf ltac:(lia)
                  (tick_well_formed w s s' Hwf Ht) Hsc' Hfr' Hfin).
      f_equal. cbn [length]. lia.
Qed.

(** X15: the score of a generation depends on nothing but the number of
    iterations made: it is 0 up to the 94th, 1 from the 95th, and then
    grows by 1 every 90 iterations. *)
Theorem score_timeline fuel quits genomes gen g (sf : State w) :
  final_state (eval_genomes w fuel quits genomes gen g) = Some sf ->
  let n := Z.of_nat (length (history w fuel quits (start w genomes gen g))) in
  score sf = (if (n <? 95)%Z then 0 else 1 + (n - 95) / 90)%Z.
Proof.
  intros Hfin n. unfold eval_genomes in Hfin.
  rewrite (run_timeline fuel 0 quits _ sf ltac:(lia)
             (start_well_formed w genomes gen g)); [reflexivity | | | exact Hfin].
  - unfold start. destruct (Pipe.init _ 700 g). reflexivity.
  - unfold start, Pipe.init.
    destruct (set_height_fields (pipe_img_height w) (Pipe.mk 700 false 0 0 0) g)
      as (Hx & Hp & _).
    cbv zeta in *. cbn [Pipe.x Pipe.passed] in Hx, Hp.
    destruct (Pipe.set_height _ _ g) as [p g']. cbn [fst] in *.
    exists [], p. cbn [pipes]. repeat split; assumption.
Qed.

End Timeline.

(** ** The manual session *)

Section SessionFacts.

Import Manual.

Context (w : World).

Implicit Types (m : Manual.State) (b : Bird.t).

(** The events are read up to the first one that ends the game. *)
Lemma poll_run events : forall b r,
  snd (poll events b r) = (if existsb ends_game events then false else r) /\
  Bird.y (fst (poll events b r)) = Bird.y b.
Proof.
  induction events as [| e events IH]; intros b r; [split; reflexivity |].
  destruct e as [| k |]; cbn [poll existsb ends_game orb].
  - split; reflexivity.
  - destruct k; cbn [fst snd orb];
      try (destruct (IH (Bird.jump b) r) as [H1 H2]; split; [exact H1 | exact H2]);
      try (destruct (IH b r) as [H1 H2]; split; [exact H1 | exact H2]).
    split; reflexivity.
  - apply IH.
Qed.

Lemma poll_app pre events : forall b r,
  existsb ends_game pre = false ->
  poll (pre ++ events) b r = poll events (fst (poll pre b r)) r.
Proof.
  induction pre as [| e pre IH]; intros b r Hpre; [reflexivity |].
  cbn [existsb] in Hpre. apply orb_false_elim in Hpre as [He Hpre].
  destruct e as [| k |]; cbn [app poll]; [discriminate | | apply IH, Hpre].
  destruct k; try discriminate; apply IH, Hpre.
Qed.

(** A bird that has just jumped is still one after the rest of the
    events. *)
Lemma poll_jumped events : forall b r,
  Bird.tick_count b = 0%Z -> Bird.vel b = -9.5 ->
  Bird.tick_count (fst (poll events b r)) = 0%Z /\
  Bird.vel (fst (poll events b r)) = -9.5.
Proof.
  induction events as [| e events IH]; intros b r Ht Hv; [split; assumption |].
  destruct e as [| k |]; cbn [poll]; [split; assumption | | apply IH; assumption].
  destruct k; cbn [fst]; try (apply IH; reflexivity);
    try (apply IH; assumption).
  split; assumption.
Qed.

(** The loop over the obstacles only draws the bird, and clears [run] or
    leaves it. *)
Lemma manual_pipe_loop_physics ps : forall b r add,
  let res := pipe_loop w ps b r add in
  Bird.y (fst (fst (fst res))) = Bird.y b /\
  (snd (fst res) = true -> r = true).
Proof.
  induction ps as [| p ps IH]; intros b r add; [split; [reflexivity | auto] |].
  cbn [pipe_loop]. cbv zeta.
  set (hit := Pipe.collide (overlap w) (Pipe.move p) b).
  set (b1 := if hit then Bird.draw b else b).
  set (r1 := if hit then false else r).
  set (c := negb (Pipe.passed (Pipe.move p))
            && (Pipe.x (Pipe.move p) <? Bird.x b1)%Z).
  specialize (IH b1 r1 (add || c)). cbv zeta in IH.
  destruct (pipe_loop w ps b1 r1 (add || c)) as [[[b2 ps2] r2] add'].
  cbn [fst snd] in *. destruct IH as [IHy IHr].
  split.
  - rewrite IHy. subst b1. destruct hit; [apply draw_physics | reflexivity].
  - intro H. specialize (IHr H). subst r1. destruct hit; [discriminate | exact IHr].
Qed.

Lemma iteration_bird events m :
  let b0 := fst (poll events (bird m) (run m)) in
  Bird.y (bird (iteration w events m)) = Bird.y (Bird.move b0) /\
  (run (iteration w events m) = true ->
   snd (poll events (bird m) (run m)) = true /\
   out_of_bounds w (Base.y (base m))
     (fst (fst (fst (pipe_loop w (pipes m) (Bird.move b0)
                       (snd (poll events (bird m) (run m))) false))))
   = false).
Proof.
  unfold iteration.
  destruct (poll events (bird m) (run m)) as [b0 r0]. cbn [fst snd].
  pose proof (manual_pipe_loop_physics (pipes m) (Bird.move b0) r0 false)
    as [Hy Hr].
  destruct (pipe_loop w (pipes m) (Bird.move b0) r0 false)
    as [[[b2 ps2] r2] add']. cbn [fst snd] in *.
  destruct add'.
  - destruct (Pipe.init _ _ _) as [np g']. cbn [bird run].
    destruct (out_of_bounds w (Base.y (base m)) b2) eqn:Hout.
    + split; [| discriminate].
      rewrite <- Hy.
      destruct (draw_physics (Bird.draw b2)) as [D1 _].
      destruct (draw_physics b2) as [D2 _]. congruence.
    + split; [| intro H; split; [apply Hr, H | reflexivity]].
      rewrite <- Hy. apply draw_physics.
  - cbn [bird run].
    destruct (out_of_bounds w (Base.y (base m)) b2) eqn:Hout.
    + split; [| discriminate].
      rewrite <- Hy.
      destruct (draw_physics (Bird.draw b2)) as [D1 _].
      destruct (draw_physics b2) as [D2 _]. congruence.
    + split; [| intro H; split; [apply Hr, H | reflexivity]].
      rewrite <- Hy. apply draw_physics.
Qed.

(** X13: a press of SPACE or UP that is read, no event before it ending
    the game, takes the bird up by 10 in that iteration, whatever it was
    doing and whatever else is in the queue. *)
Theorem jump_key_lifts pre k rest m :
  existsb ends_game pre = false ->
  k = K_SPACE \/ k = K_UP ->
  Bird.y (bird (iteration w (pre ++ KEYDOWN k :: rest) m))
  == Bird.y (bird m) - 10.
Proof.
  intros Hpre Hk.
  destruct (iteration_bird (pre ++ KEYDOWN k :: rest) m) as [Hy _].
  cbv zeta in Hy. rewrite Hy. rewrite poll_app by exact Hpre.
  set (b1 := fst (poll pre (bird m) (run m))).
  assert (Hy1 : Bird.y b1 = Bird.y (bird m)) by (apply poll_run).
  assert (Hpoll : poll (KEYDOWN k :: rest) b1 (run m)
                  = poll rest (Bird.jump b1) (run m))
    by (destruct Hk; subst k; reflexivity).
  rewrite Hpoll.
  destruct (poll_jumped rest (Bird.jump b1) (run m) eq_refl eq_refl)
    as [Ht Hv].
  destruct (poll_run rest (Bird.jump b1) (run m)) as [_ Hyj].
  cbn [Bird.move Bird.y]. rewrite Ht, Hv, Hyj. cbn [Bird.jump Bird.y].
  rewrite Hy1. change (Bird.displacement (-9.5) (0 + 1)) with
    (Bird.displacement (-9.5) 1).
  assert (Hd : Bird.displacement (-9.5) 1 == -10) by (vm_compute; reflexivity).
  rewrite Hd. ring.
Qed.

(** X14: the session goes on after an iteration only if it was going on
    before, the queue held no QUIT and no ESCAPE, and the bird ends the
    iteration between the top of the window and the ground line.  Once
    [run] is cleared no input sets it again: a session that is still
    running after all its inputs was running from the start. *)
Theorem session_goes_on events inputs m :
  (run (iteration w events m) = true ->
   run m = true /\ existsb ends_game events = false /\
   0 <= Bird.y (bird (iteration w events m)) /\
   Bird.y (bird (iteration w events m)) < inject_Z (Base.y (base m))) /\
  (run (session w inputs m) = true -> run m = true).
Proof.
  split.
  - intro Hrun. destruct (iteration_bird events m) as [Hy Hgo].
    destruct (Hgo Hrun) as [Hr0 Hout]. cbv zeta in *.
    destruct (poll_run events (bird m) (run m)) as [Hr _].
    rewrite Hr in Hr0.
    destruct (existsb ends_game events); [discriminate |].
    split; [exact Hr0 |]. split; [reflexivity |].
    apply (in_bounds w) in Hout.
    pose proof (manual_pipe_loop_physics (pipes m)
                  (Bird.move (fst (poll events (bird m) (run m))))
                  (snd (poll events (bird m) (run m))) false) as [Hy2 _].
    cbv zeta in Hy2. rewrite Hy2 in Hout. rewrite Hy. exact Hout.
  - revert m. induction inputs as [| evs inputs IH]; intro m; cbn [session];
      [auto |].
    destruct (run m) eqn:Hm; [reflexivity | congruence].
Qed.

End SessionFacts.

(** ** The manual session over time *)

Section SessionTimeline.

Import Manual.

Context (w : World).

Implicit Types (m : Manual.State) (b : Bird.t).

Lemma manual_pipe_loop_pipes ps : forall b r add,
  snd (fst (fst (pipe_loop w ps b r add)))
  = map (Neat.advance (Bird.x b)) ps.
Proof.
  induction ps as [| p ps IH]; intros b r add; [reflexivity |].
  cbn [pipe_loop map].
  set (hit := Pipe.collide (overlap w) (Pipe.move p) b).
  set (b1 := if hit then Bird.draw b else b).
  assert (Hx : Bird.x b1 = Bird.x b)
    by (subst b1; destruct hit; [apply draw_x | reflexivity]).
  set (c := negb (Pipe.passed (Pipe.move p))
            && (Pipe.x (Pipe.move p) <? Bird.x b1)%Z).
  specialize (IH b1 (if hit then false else r) (add || c)).
  destruct (pipe_loop w ps b1 _ _) as [[[b2 ps2] r2] add'].
  cbn [fst snd] in *. rewrite IH, Hx. f_equal.
  unfold Neat.advance, Neat.crossed. subst c. rewrite Hx. reflexivity.
Qed.

Lemma manual_pipe_loop_bird ps : forall b r add,
  let b2 := fst (fst (fst (pipe_loop w ps b r add))) in
  Bird.vel b2 = Bird.vel b /\ Bird.tick_count b2 = Bird.tick_count b.
Proof.
  induction ps as [| p ps IH]; intros b r add; [split; reflexivity |].
  cbn [pipe_loop]. cbv zeta.
  set (hit := Pipe.collide (overlap w) (Pipe.move p) b).
  set (b1 := if hit then Bird.draw b else b).
  set (c := negb (Pipe.passed (Pipe.move p))
            && (Pipe.x (Pipe.move p) <? Bird.x b1)%Z).
  specialize (IH b1 (if hit then false else r) (add || c)). cbv zeta in IH.
  destruct (pipe_loop w ps b1 _ _) as [[[b2 ps2] r2] add'].
  cbn [fst snd] in *. destruct IH as [IHv IHt]. rewrite IHv, IHt.
  subst b1. destruct hit; [| split; reflexivity].
  destruct (draw_physics b) as (_ & Dv & Dt). split; assumption.
Qed.

(** What an iteration of the session does to the bird's abscissa, to the
    obstacles and to the score. *)
Lemma iteration_spec events m :
  let rx := Bird.x (bird m) in
  let pass := existsb (Pipe.overtaken rx) (pipes m) in
  Bird.x (bird (iteration w events m)) = rx /\
  Base.y (base (iteration w events m)) = Base.y (base m) /\
  pipes (iteration w events m)
  = filter (fun p => negb (off_screen w p)) (map (Neat.advance rx) (pipes m))
    ++ (if pass
        then [fst (Pipe.init (pipe_img_height w) (WIN_WIDTH + 100) (rng m))]
        else []).
Proof.
  cbv zeta. unfold iteration.
  pose proof (poll_x events (bird m) (run m)) as Hx.
  destruct (poll events (bird m) (run m)) as [b0 r0]. cbn [fst] in Hx.
  pose proof (manual_pipe_loop_spec w (pipes m) (Bird.move b0) r0 false)
    as [Hx2 Hadd].
  pose proof (manual_pipe_loop_pipes (pipes m) (Bird.move b0) r0 false) as Hps.
  destruct (pipe_loop w (pipes m) (Bird.move b0) r0 false)
    as [[[b2 ps2] r2] add']. cbn [fst snd orb] in *.
  change (Bird.x (Bird.move b0)) with (Bird.x b0) in *.
  rewrite Hx in *. subst ps2. rewrite <- Hadd.
  assert (Hxd : forall b, Bird.x b = Bird.x (bird m) ->
                  Bird.x (Bird.draw
                            (if out_of_bounds w (Base.y (base m)) b2
                             then Bird.draw b else b)) = Bird.x (bird m)).
  { intros b Hb. rewrite draw_x. destruct (out_of_bounds _ _ _);
      [rewrite draw_x |]; exact Hb. }
  destruct add'.
  - destruct (Pipe.init _ _ _) as [np g']. cbn [bird pipes base fst].
    split; [apply Hxd, Hx2 |]. split; reflexivity.
  - cbn [bird pipes base]. rewrite app_nil_r.
    split; [apply Hxd, Hx2 |]. split; reflexivity.
Qed.

Lemma iteration_timeline (n : Z) events m :
  (0 <= n)%Z ->
  Bird.x (bird m) = 230%Z ->
  score m = score_at n ->
  (exists olds p, pipes m = olds ++ [p] /\
                  forallb Pipe.passed olds = true /\
                  Pipe.passed p = false /\ Pipe.x p = frontier n) ->
  let m' := iteration w events m in
  Bird.x (bird m') = 230%Z /\
  score m' = score_at (n + 1) /\
  (exists olds p, pipes m' = olds ++ [p] /\
                  forallb Pipe.passed olds = true /\
                  Pipe.passed p = false /\ Pipe.x p = frontier (n + 1)).
Proof.
  intros Hn Hx Hsc (olds & p & Hps & Holds & Hp & Hxp) m'. subst m'.
  destruct (iteration_spec events m) as (Hx' & _ & Hps').
  pose proof (iteration_score w events m) as Hsc'.
  cbv zeta in *. rewrite Hx in *. rewrite Hps in Hps', Hsc'.
  split; [exact Hx' |].
  destruct (obstacles_step 230 olds p Holds Hp) as (He & Hm & Hall).
  change (existsb (Pipe.overtaken 230) (olds ++ [p]))
    with (existsb (fun q => Neat.crossed 230 (Pipe.move q)) (olds ++ [p]))
    in Hps', Hsc'.
  rewrite He in Hps', Hsc'. rewrite Hm, filter_app in Hps'.
  destruct (timeline_step n Hn) as [Hcross Hstay].
  assert (Hc : Neat.crossed 230 (Pipe.move p) = (frontier n - 5 <? 230)%Z).
  { unfold Neat.crossed. cbn [Pipe.move Pipe.passed Pipe.x].
    rewrite Hp, Hxp. reflexivity. }
  rewrite Hc in Hps', Hsc'.
  destruct (frontier n - 5 <? 230)%Z eqn:E.
  - apply Z.ltb_lt in E. destruct (Hcross E) as [Hs1 Hf1].
    split; [lia |].
    eexists _, _. split; [exact Hps' |].
    split; [| split; [reflexivity | rewrite Hf1; reflexivity]].
    rewrite forallb_app, forallb_filter by exact Hall.
    cbn. destruct (negb _); reflexivity.
  - apply Z.ltb_ge in E. destruct (Hstay E) as [Hs1 Hf1].
    split; [lia |].
    pose proof Hc as Hc'.
    cbn [filter] in Hps'.
    change (off_screen w (Pipe.move p))
      with (Neat.off_screen w (Pipe.move p)) in Hps'.
    rewrite (unpassed_on_screen w 230 p ltac:(lia) Hp Hc') in Hps'.
    cbn [negb] in Hps'. rewrite app_nil_r in Hps'.
    eexists _, _. split; [exact Hps' |].
    split; [apply forallb_filter, Hall |].
    split; [exact Hp |]. cbn [Pipe.move Pipe.x]. unfold Pipe.VEL. lia.
Qed.

Lemma session_timeline inputs : forall (n : Z) m,
  (0 <= n)%Z ->
  Bird.x (bird m) = 230%Z ->
  score m = score_at n ->
  (exists olds p, pipes m = olds ++ [p] /\
                  forallb Pipe.passed olds = true /\
                  Pipe.passed p = false /\ Pipe.x p = frontier n) ->
  score (session w inputs m) = score_at (n + Z.of_nat (played w inputs m)).
Proof.
  induction inputs as [| events inputs IH]; intros n m Hn Hx Hsc Hfr.
  - cbn. rewrite Z.add_0_r. exact Hsc.
  - cbn [session played]. destruct (run m).
    + destruct (iteration_timeline n events m Hn Hx Hsc Hfr) as (Hx' & Hsc' & Hfr').
      rewrite (IH (n + 1)%Z _ ltac:(lia) Hx' Hsc' Hfr'). f_equal. lia.
    + cbn. rewrite Z.add_0_r. exact Hsc.
Qed.

(** X16: the score of a manual session depends on nothing but the number
    of iterations played: 0 up to the 94th, 1 from the 95th, and one more
    every 90 iterations after that. *)
Theorem manual_score_timeline inputs g :
  let n := Z.of_nat (played w inputs (start w g)) in
  score (session w inputs (start w g))
  = (if (n <? 95)%Z then 0 else 1 + (n - 95) / 90)%Z.
Proof.
  intro n.
  rewrite (session_timeline inputs 0 (start w g) ltac:(lia)); [reflexivity | | |].
  - unfold start. destruct (Pipe.init _ 700 g). reflexivity.
  - unfold start. destruct (Pipe.init _ 700 g). reflexivity.
  - unfold start, Pipe.init.
    destruct (set_height_fields (pipe_img_height w) (Pipe.mk 700 false 0 0 0) g)
      as (Hx & Hp & _).
    cbv zeta in *. cbn [Pipe.x Pipe.passed] in Hx, Hp.
    destruct (Pipe.set_height _ _ g) as [p g']. cbn [fst] in *.
    exists [], p. cbn [pipes]. repeat split; assumption.
Qed.

(** *** A session without a jump *)

Lemma poll_idle events : forall b r,
  forallb (fun e => negb (is_jump e)) events = true ->
  fst (poll events b r) = b.
Proof.
  induction events as [| e events IH]; intros b r Hno; [reflexivity |].
  cbn [forallb] in Hno. apply andb_prop in Hno as [He Hno].
  destruct e as [| k |]; cbn [poll]; [reflexivity | | apply IH, Hno].
  destruct k; try discriminate; cbn [fst]; [reflexivity | apply IH, Hno].
Qed.

Lemma idle_iteration (n : nat) events m :
  forallb (fun e => negb (is_jump e)) events = true ->
  Base.y (base m) = 730%Z ->
  Bird.y (bird m) = Bird.y (glide n) ->
  Bird.vel (bird m) = Bird.vel (glide n) ->
  Bird.tick_count (bird m) = Bird.tick_count (glide n) ->
  let m' := iteration w events m in
  Base.y (base m') = 730%Z /\
  Bird.y (bird m') = Bird.y (glide (S n)) /\
  Bird.vel (bird m') = Bird.vel (glide (S n)) /\
  Bird.tick_count (bird m') = Bird.tick_count (glide (S n)) /\
  (run m' = true -> Bird.y (glide (S n)) < 730).
Proof.
  intros Hno Hby Hy Hv Ht m'. subst m'.
  destruct (iteration_spec events m) as (_ & Hby' & _).
  destruct (iteration_bird w events m) as [Hy' Hgo].
  cbv zeta in *. rewrite (poll_idle events _ _ Hno) in *.
  pose proof (manual_pipe_loop_physics w (pipes m) (Bird.move (bird m))
                (snd (poll events (bird m) (run m))) false) as [Hy2 _].
  cbv zeta in Hy2.
  assert (Hmove : Bird.y (Bird.move (bird m)) = Bird.y (glide (S n)) /\
                  Bird.vel (Bird.move (bird m)) = Bird.vel (glide (S n)) /\
                  Bird.tick_count (Bird.move (bird m))
                  = Bird.tick_count (glide (S n))).
  { unfold glide. rewrite Nat.iter_succ. fold (glide n).
    cbn [Bird.move Bird.y Bird.vel Bird.tick_count].
    rewrite Hy, Hv, Ht. repeat split. }
  destruct Hmove as (My & Mv & Mt).
  split; [congruence |]. split; [congruence |].
  assert (Hvt : Bird.vel (bird (iteration w events m))
                = Bird.vel (Bird.move (bird m)) /\
                Bird.tick_count (bird (iteration w events m))
                = Bird.tick_count (Bird.move (bird m))).
  { unfold iteration. rewrite (surjective_pairing (poll events _ _)).
    rewrite (poll_idle events _ _ Hno).
    pose proof (manual_pipe_loop_bird (pipes m) (Bird.move (bird m))
                  (snd (poll events (bird m) (run m))) false) as Hb.
    cbv zeta in Hb.
    destruct (pipe_loop w (pipes m) (Bird.move (bird m)) _ false)
      as [[[b2 ps2] r2] add']. cbn [fst snd] in Hb. destruct Hb as [Hbv Hbt].
    assert (Hd : forall b, Bird.vel (Bird.draw b) = Bird.vel b /\
                           Bird.tick_count (Bird.draw b) = Bird.tick_count b)
      by (intro b; destruct (draw_physics b) as (_ & D1 & D2); split; assumption).
    destruct add'; [destruct (Pipe.init _ _ _) |]; cbn [bird];
      destruct (out_of_bounds w (Base.y (base m)) b2);
      repeat (rewrite (proj1 (Hd _)) || rewrite (proj2 (Hd _)));
      split; assumption. }
  destruct Hvt as [Hvel Htc].
  split; [congruence |]. split; [congruence |].
  intro Hrun. destruct (Hgo Hrun) as [_ Hout].
  change (out_of_bounds w) with (Neat.out_of_bounds w) in Hout.
  apply in_bounds in Hout as [_ Hlt]. rewrite Hy2, Hby, My in Hlt. exact Hlt.
Qed.

Lemma idle_session inputs : forall (n : nat) m,
  Forall (fun events => forallb (fun e => negb (is_jump e)) events = true)
         inputs ->
  Base.y (base m) = 730%Z ->
  Bird.y (bird m) = Bird.y (glide n) ->
  Bird.vel (bird m) = Bird.vel (glide n) ->
  Bird.tick_count (bird m) = Bird.tick_count (glide n) ->
  (run m = true -> n = 0%nat \/ Bird.y (glide n) < 730) ->
  (n <= 26)%nat -> (26 - n <= length inputs)%nat ->
  run (session w inputs m) = false /\ (played w inputs m <= 26 - n)%nat.
Proof.
  induction inputs as [| events inputs IH];
    intros n m Hno Hby Hy Hv Ht Hlow Hn Hlen.
  - cbn [length] in Hlen. cbn [session played].
    assert (n = 26)%nat by lia. subst n.
    destruct (run m); [| split; [reflexivity | lia]].
    destruct (Hlow eq_refl) as [H0 | Hlt]; [lia |].
    pose proof glide_26. lra.
  - cbn [session played]. destruct (run m) eqn:Hrun;
      [| split; [exact Hrun | lia]].
    inversion Hno as [| ? ? Hev Hrest]; subst.
    assert (Hn26 : (n < 26)%nat).
    { destruct (Nat.eq_dec n 26) as [-> | Hne]; [| lia].
      destruct (Hlow eq_refl) as [H0 | Hlt]; [lia |].
      pose proof glide_26. lra. }
    destruct (idle_iteration n events m Hev Hby Hy Hv Ht)
      as (Hby' & Hy' & Hv' & Ht' & Hlow').
    destruct (IH (S n) (iteration w events m) Hrest Hby' Hy' Hv' Ht')
      as [Hend Hplayed].
    + intro H. right. apply Hlow', H.
    + lia.
    + cbn [length] in Hlen. lia.
    + split; [exact Hend | lia].
Qed.

(** X17: a manual session in which no jump key is ever pressed is over
    after 26 iterations at most: given 26 batches of events or more, none
    holding SPACE or UP, it ends with [run] cleared. *)
Theorem idle_session_ends inputs g :
  Forall (fun events => forallb (fun e => negb (is_jump e)) events = true)
         inputs ->
  (26 <= length inputs)%nat ->
  run (session w inputs (start w g)) = false /\
  (played w inputs (start w g) <= 26)%nat.
Proof.
  intros Hno Hlen.
  assert (Hstart : bird (start w g) = Bird.init 230 350 /\
                   Base.y (base (start w g)) = 730%Z).
  { unfold start. destruct (Pipe.init _ 700 g). split; reflexivity. }
  destruct Hstart as [Hb Hby].
  destruct (idle_session inputs 0 (start w g) Hno Hby) as [Hend Hpl];
    try (rewrite Hb; reflexivity); try lia;
    try (intros _; left; reflexivity).
  split; [exact Hend | lia].
Qed.

End SessionTimeline.

(** ** Generations of birds that always jump *)

Section EagerGenerations.

Import Neat.

Context (w : World).

Implicit Types (a : Agent w) (s : State w).

Lemma decide_eager lead a :
  eager w -> is_alive a = true ->
  bird (decide w lead a) = Bird.jump (Bird.move (bird a)).
Proof.
  intros Heager Ha. unfold decide. rewrite Ha.
  pose proof (Heager (net a) (Bird.y (Bird.move (bird a)))
                (Qabs (Bird.y (Bird.move (bird a))
                       - inject_Z (Pipe.height lead)))
                (Qabs (Bird.y (Bird.move (bird a))
                       - inject_Z (Pipe.height lead + Pipe.GAP)))) as Hout.
  destruct (activate w (net a) _ _ _) as [out n']. cbn [fst] in Hout.
  apply Qltb_true in Hout. rewrite Hout. reflexivity.
Qed.

Lemma tick_soaring n s s' :
  eager w ->
  Base.y (base s) = 730%Z ->
  Forall (fun a => is_alive a = true ->
            Bird.y (bird a) = Bird.y (soar n) /\
            Bird.vel (bird a) = Bird.vel (soar n) /\
            Bird.tick_count (bird a) = Bird.tick_count (soar n)) (agents s) ->
  tick w s = Ok s' ->
  Forall (fun a => is_alive a = true ->
            (Bird.y (bird a) = Bird.y (soar (S n)) /\
             Bird.vel (bird a) = Bird.vel (soar (S n)) /\
             Bird.tick_count (bird a) = Bird.tick_count (soar (S n))) /\
            0 <= Bird.y (soar (S n))) (agents s').
Proof.
  intros Heager Hby Hs Ht.
  destruct (tick_spec w s s' Ht) as (lead & _ & _ & Hags & _).
  rewrite Hags. apply Forall_forall. intros a' Ha'.
  apply in_map_iff in Ha' as (a & <- & Hin). intro Hal'.
  destruct (survivor w s lead a Hal') as (Hal & Hb & Hbounds).
  rewrite Forall_forall in Hs. destruct (Hs a Hin Hal) as (Hy & Hv & Hk).
  rewrite (decide_eager lead a Heager Hal) in Hb, Hbounds.
  apply in_bounds in Hbounds as [Hge _].
  destruct (draw_physics (Bird.jump (Bird.move (bird a)))) as (Dy & Dv & Dk).
  assert (Hstep : Bird.y (Bird.jump (Bird.move (bird a))) = Bird.y (soar (S n))
                  /\ Bird.vel (Bird.jump (Bird.move (bird a)))
                     = Bird.vel (soar (S n))
                  /\ Bird.tick_count (Bird.jump (Bird.move (bird a)))
                     = Bird.tick_count (soar (S n))).
  { unfold soar. rewrite Nat.iter_succ. fold (soar n).
    cbn [Bird.jump Bird.move Bird.y Bird.vel Bird.tick_count].
    rewrite Hy, Hv, Hk. repeat split. }
  destruct Hstep as (My & Mv & Mk).
  rewrite Hb, Dy, Dv, Dk. rewrite My in Hge.
  repeat split; assumption.
Qed.

Lemma soar_37 : Bird.y (soar 37) < 0.
Proof. vm_compute. reflexivity. Qed.

Lemma eager_loop fuel : forall n quits s,
  eager w -> no_quit quits ->
  well_formed w s -> Base.y (base s) = 730%Z ->
  Forall (fun a => is_alive a = true ->
            Bird.y (bird a) = Bird.y (soar n) /\
            Bird.vel (bird a) = Bird.vel (soar n) /\
            Bird.tick_count (bird a) = Bird.tick_count (soar n)) (agents s) ->
  (alive_birds s <> [] -> n = 0%nat \/ 0 <= Bird.y (soar n)) ->
  (n <= 37)%nat -> (37 - n < fuel)%nat ->
  exists sf,
    loop w fuel quits s = Returned sf /\
    (length (history w fuel quits s) <= 37 - n)%nat.
Proof.
  induction fuel as [| fuel IH];
    intros n quits s Heager Hq Hwf Hby Hs Hlow Hn Hfuel; [lia |].
  destruct (no_quit_step quits Hq) as [Hhd Htl].
  cbn [loop history]. rewrite Hhd.
  destruct (alive_birds s) as [| a0 rest] eqn:Hlive.
  - exists s. split; [reflexivity | cbn; lia].
  - assert (Hn37 : (n < 37)%nat).
    { destruct (Nat.eq_dec n 37) as [-> | Hne]; [| lia].
      destruct Hlow as [H0 | Hge]; [discriminate | lia |].
      pose proof soar_37. lra. }
    destruct (tick_defined w s (well_formed_pipes w s Hwf)) as [s' Ht].
    rewrite Ht.
    pose proof (tick_soaring n s s' Heager Hby Hs Ht) as Hs'.
    destruct (tick_on_screen w s s' Hby Ht) as [Hby' _].
    destruct (IH (S n) (tl quits) s' Heager Htl
                 (tick_well_formed w s s' Hwf Ht) Hby') as (sf & Hret & Hlen).
    + rewrite Forall_forall in *. intros a Ha Hal. apply (Hs' a Ha Hal).
    + intro Hlive'. right.
      destruct (alive_birds s') as [| a1 rest1] eqn:E; [congruence |].
      rewrite Forall_forall in Hs'.
      assert (Hin1 : In a1 (alive_birds s')) by (rewrite E; left; reflexivity).
      apply filter_In in Hin1 as [Hin1 Hal1]. apply (Hs' a1 Hin1 Hal1).
    + lia.
    + lia.
    + exists sf. split; [exact Hret |]. cbn [length]. lia.
Qed.

(** X18: when every network asks for a jump at every tick and nobody
    closes the window, a generation ends as well: its birds leave through
    the top, and with fuel for 38 iterations the loop returns after 37
    iterations at most, every bird dead. *)
Theorem eager_generation_returns fuel quits genomes gen g :
  eager w -> no_quit quits -> (38 <= fuel)%nat ->
  exists sf,
    eval_genomes w fuel quits genomes gen g = Returned sf /\
    (length (history w fuel quits (start w genomes gen g)) <= 37)%nat /\
    Forall (fun a => is_alive a = false) (agents sf).
Proof.
  intros Heager Hq Hfuel. unfold eval_genomes.
  destruct (eager_loop fuel 0 quits (start w genomes gen g) Heager Hq
              (start_well_formed w genomes gen g)) as (sf & Hret & Hlen).
  - unfold start. destruct (Pipe.init _ 700 g). reflexivity.
  - apply Forall_forall. intros a Ha _.
    apply In_nth_error in Ha as [i Hi].
    destruct (start_agent w genomes gen g i a Hi) as (_ & _ & Hb & _).
    rewrite Hb. repeat split.
  - intros _. left. reflexivity.
  - lia.
  - lia.
  - exists sf. split; [exact Hret |]. split; [lia |].
    apply Forall_forall. intros a Ha.
    apply In_nth_error in Ha as [i Hi].
    exact (no_alive_birds w sf i a (loop_returned w fuel quits _ sf Hret) Hi).
Qed.

End EagerGenerations.

(** ** The further properties on the sample worlds *)

Section MoreSamples.

Import Neat.

Lemma draw_animation_witness :
  Bird.img (Nat.iter 7 Bird.draw (Bird.init 230 350)) = 1%Z /\
  Bird.draw (Bird.draw (apply_ops (repeat DoMove 10) (Bird.init 230 350)))
  = Bird.draw (apply_ops (repeat DoMove 10) (Bird.init 230 350)).
Proof.
  split.
  - destruct (draw_animation (Bird.init 230 350) 6) as (_ & Hup & _).
    destruct Hup as [_ Himg]; [vm_compute; reflexivity |].
    apply (eq_trans Himg). vm_compute. reflexivity.
  - destruct (draw_animation
                (apply_ops (repeat DoMove 10) (Bird.init 230 350)) 0)
      as (_ & _ & Hdown).
    apply Hdown. vm_compute. discriminate.
Defined.

Lemma generation_keeps_cohort_witness :
  map genome (agents (state_after 40 mixed)) = [glider; flapper] /\
  GEN (state_after 40 mixed) = 1%Z.
Proof.
  destruct (generation_keeps_cohort box_world 40 [] mixed 0 sample_rng
              (state_after 40 mixed)) as (Hg & _ & Hgen).
  - vm_compute. reflexivity.
  - split; [exact Hg | exact Hgen].
Defined.

Lemma generation_draws_witness :
  Z.of_nat (Random.pos (rng (state_after 95 duo)))
  = (0 + score (state_after 95 duo) + 1)%Z.
Proof.
  destruct (generation_draws box_world 95 [] duo 0 sample_rng
              (state_after 95 duo)) as (_ & Hpos & _).
  - vm_compute. reflexivity.
  - exact Hpos.
Defined.

Lemma generation_ground_witness :
  Base.adjacent 672 (base (state_after 40 mixed)).
Proof.
  destruct (generation_ground box_world 40 [] mixed 0 sample_rng
              (state_after 40 mixed)) as (_ & Hadj & _).
  - vm_compute. reflexivity.
  - exact Hadj.
Defined.

Lemma obstacles_on_course_witness :
  spaced (pipes (state_after 95 duo)) /\
  Forall (placed box_world) (pipes (state_after 95 duo)) /\
  length (pipes (state_after 95 duo)) = 2%nat.
Proof.
  destruct (obstacles_on_course box_world 95 [] duo 0 sample_rng) as [_ Hf].
  destruct (Hf (state_after 95 duo)) as [Hsp Hpl].
  - vm_compute. reflexivity.
  - split; [exact Hsp |]. split; [exact Hpl |]. vm_compute. reflexivity.
Defined.

Lemma lead_obstacle_ahead_witness :
  exists lead,
    nth_error (pipes (state_after 117 ace)) 1 = Some lead /\
    (230 <= Pipe.x lead + 104)%Z.
Proof.
  destruct (lead_obstacle_ahead box_world 118 [] ace 0 sample_rng
              (state_after 117 ace)) as (lead & Hl & Hx & _).
  - apply (nth_error_In _ 117). vm_compute. reflexivity.
  - exists lead. split; [| exact Hx].
    apply (eq_trans (y := nth_error (pipes (state_after 117 ace))
                                    (pipe_ind box_world (state_after 117 ace))));
      [vm_compute; reflexivity | exact Hl].
Defined.

Lemma living_birds_on_screen_witness :
  0 <= Bird.y (bird (nth 0 (agents (state_after 95 duo)) idle)) /\
  Bird.y (bird (nth 0 (agents (state_after 95 duo)) idle)) < 730.
Proof.
  destruct (living_birds_on_screen box_world 95 [] duo 0 sample_rng)
    as [_ Hf].
  apply (Hf (state_after 95 duo)).
  - vm_compute. reflexivity.
  - apply nth_In. vm_compute. lia.
  - vm_compute. reflexivity.
Defined.

Lemma calm_generation_returns_witness :
  exists sf,
    eval_genomes calm_world 27 [] [(1%Z, tt); (2%Z, tt)] 0 sample_rng
    = Returned sf.
Proof.
  destruct (calm_generation_returns calm_world 27 [] [(1%Z, tt); (2%Z, tt)]
              0 sample_rng) as (sf & Hret & _).
  - intros n a b c. vm_compute. discriminate.
  - reflexivity.
  - lia.
  - exists sf. exact Hret.
Defined.

Lemma eager_generation_returns_witness :
  exists sf,
    eval_genomes eager_world 38 [] [(1%Z, tt); (2%Z, tt)] 0 sample_rng
    = Returned sf.
Proof.
  destruct (eager_generation_returns eager_world 38 [] [(1%Z, tt); (2%Z, tt)]
              0 sample_rng) as (sf & Hret & _).
  - intros n a b c. vm_compute. reflexivity.
  - reflexivity.
  - lia.
  - exists sf. exact Hret.
Defined.

Lemma score_timeline_witness : score (state_after 95 duo) = 1%Z.
Proof.
  pose proof (score_timeline box_world 95 [] duo 0 sample_rng
                (state_after 95 duo)) as H.
  cbv zeta in H. rewrite H; [| vm_compute; reflexivity].
  vm_compute. reflexivity.
Defined.

Lemma jump_key_lifts_witness :
  Bird.y (Manual.bird
            (Manual.iteration box_world
               ([Manual.OTHER_EVENT]
                ++ Manual.KEYDOWN Manual.K_UP :: [Manual.QUIT])
               fresh_session))
  == 340.
Proof.
  apply (Qeq_trans _ _ _
           (jump_key_lifts box_world [Manual.OTHER_EVENT] Manual.K_UP
              [Manual.QUIT] fresh_session eq_refl (or_intror eq_refl))).
  vm_compute. reflexivity.
Defined.

Lemma session_goes_on_witness :
  Manual.run fresh_session = true /\
  0 <= Bird.y (Manual.bird (Manual.iteration box_world [] fresh_session)).
Proof.
  destruct (session_goes_on box_world [] [] fresh_session) as [Hgo _].
  destruct Hgo as (Hrun & _ & Hy & _); [vm_compute; reflexivity |].
  split; [exact Hrun | exact Hy].
Defined.

Lemma idle_session_ends_witness :
  Manual.run (Manual.session box_world idle_inputs fresh_session) = false.
Proof.
  apply (idle_session_ends box_world idle_inputs sample_rng).
  - apply Forall_forall. intros events Hin.
    apply repeat_spec in Hin. subst events. reflexivity.
  - vm_compute. lia.
Defined.

End MoreSamples.
